(** * Windows storage volumes: a model of [go/storage/volume.go]

  The file under study is a thin layer over the OLE automation binding
  (go-ole): every method of [Volume] forwards to a native object and turns
  the answer into Go values and errors.  The development below embeds the
  Go code as functions in a small monad that records every native call,
  and proves what the layer does with the answers. *)

From Stdlib Require Import ZArith Zbitwise List String Ascii Bool Lia
  DecimalString.
Import ListNotations.

Local Open Scope string_scope.
Local Open Scope list_scope.
Local Open Scope Z_scope.

(** ** Go basics: fixed-width integers, errors, formatting *)

Module Go.

(** Conversion to a signed integer type of [w] bits keeps the low bits. *)
Definition to_signed (w x : Z) : Z :=
  (x + 2 ^ (w - 1)) mod 2 ^ w - 2 ^ (w - 1).

Definition to_unsigned (w x : Z) : Z := x mod 2 ^ w.

Definition int32 (x : Z) : Z := to_signed 32 x.
Definition int64 (x : Z) : Z := to_signed 64 x.

(** The [error] interface as the code uses it: a message, and the error
    a [%w] verb wrapped, if any. *)
Inductive error : Type :=
| errorString (msg : string)
| wrapError (msg : string) (err : error).

Definition Error (e : error) : string :=
  match e with errorString m | wrapError m _ => m end.

Definition Unwrap (e : error) : option error :=
  match e with errorString _ => None | wrapError _ w => Some w end.

(** [fmt.Errorf(msg)] for a format without verbs. *)
Definition Errorf (msg : string) : error := errorString msg.

(** [fmt.Errorf(ctx + "%w", err)]: the message ends with [err]'s text and
    the result unwraps to [err]. *)
Definition Errorf_w (ctx : string) (err : error) : error :=
  wrapError (ctx ++ Error err) err.

(** The [%d] verb. *)
Definition fmt_d (n : Z) : string := NilZero.string_of_int (Z.to_int n).

(** [strings.Contains]. *)
Fixpoint Contains (s sub : string) : bool :=
  prefix sub s ||
  match s with
  | EmptyString => false
  | String _ s' => Contains s' sub
  end.

End Go.

(** ** UTF-8 and case folding, as the [unicode/utf8] and [strings] packages *)

Module Utf8.

Definition byte (c : ascii) : Z := Z.of_N (N_of_ascii c).
Definition chr (b : Z) : ascii := ascii_of_N (Z.to_N (b mod 256)).

Definition RuneSelf : Z := 128.
Definition RuneError : Z := 65533.
Definition MaxRune : Z := 1114111.

Definition cont (b : Z) : bool := (128 <=? b) && (b <=? 191).
Definition within (lo hi b : Z) : bool := (lo <=? b) && (b <=? hi).

(** [utf8.DecodeRuneInString]: the first rune of [s] and its width in
    bytes; [RuneError] with width 1 for an invalid encoding and with
    width 0 for the empty string. *)
Definition DecodeRuneInString (s : string) : Z * nat :=
  match s with
  | EmptyString => (RuneError, 0%nat)
  | String c0 s1 =>
    let b0 := byte c0 in
    if b0 <? RuneSelf then (b0, 1%nat)
    else
      match s1 with
      | EmptyString => (RuneError, 1%nat)
      | String c1 s2 =>
        let b1 := byte c1 in
        if within 194 223 b0 then
          if cont b1
          then (Z.lor (Z.shiftl (Z.land b0 31) 6) (Z.land b1 63), 2%nat)
          else (RuneError, 1%nat)
        else
          let lo1 := if b0 =? 224 then 160 else if b0 =? 240 then 144 else 128 in
          let hi1 := if b0 =? 237 then 159 else if b0 =? 244 then 143 else 191 in
          if negb (within 224 244 b0) || negb (within lo1 hi1 b1)
          then (RuneError, 1%nat)
          else
            match s2 with
            | EmptyString => (RuneError, 1%nat)
            | String c2 s3 =>
              let b2 := byte c2 in
              if negb (cont b2) then (RuneError, 1%nat)
              else if b0 <? 240 then
                (Z.lor (Z.shiftl (Z.land b0 15) 12)
                   (Z.lor (Z.shiftl (Z.land b1 63) 6) (Z.land b2 63)), 3%nat)
              else
                match s3 with
                | EmptyString => (RuneError, 1%nat)
                | String c3 _ =>
                  let b3 := byte c3 in
                  if negb (cont b3) then (RuneError, 1%nat)
                  else
                    (Z.lor (Z.shiftl (Z.land b0 7) 18)
                       (Z.lor (Z.shiftl (Z.land b1 63) 12)
                          (Z.lor (Z.shiftl (Z.land b2 63) 6) (Z.land b3 63))),
                     4%nat)
                end
            end
      end
  end.

Fixpoint drop (n : nat) (s : string) : string :=
  match n, s with
  | S n', String _ s' => drop n' s'
  | _, _ => s
  end.

(** [string(rune(r))]: the UTF-8 encoding of [r]; runes out of range and
    surrogate halves encode as [RuneError]. *)
Definition EncodeRune (r : Z) : string :=
  let r := if (r <? 0) || (MaxRune <? r) || within 55296 57343 r
           then RuneError else r in
  let tail n := chr (Z.lor 128 (Z.land (Z.shiftr r (6 * n)) 63)) in
  if r <? 128 then String (chr r) EmptyString
  else if r <? 2048 then
    String (chr (Z.lor 192 (Z.shiftr r 6))) (String (tail 0) EmptyString)
  else if r <? 65536 then
    String (chr (Z.lor 224 (Z.shiftr r 12)))
      (String (tail 1) (String (tail 0) EmptyString))
  else
    String (chr (Z.lor 240 (Z.shiftr r 18)))
      (String (tail 2) (String (tail 1) (String (tail 0) EmptyString))).

End Utf8.

Module Strings.
Import Utf8.

Definition upperA : Z := 65.
Definition upperZ : Z := 90.
Definition lowerA : Z := 97.
Definition lowerZ : Z := 122.

(** [unicode.SimpleFold] on the case orbits that contain an ASCII rune:
    the letters pair up, except that the orbit of K also holds the Kelvin
    sign (U+212A) and the orbit of S the long s (U+017F).  The tables of
    the other orbits are not reproduced: a rune outside these orbits is
    its own orbit here.  The only caller folds against an ASCII literal,
    and then only the orbits of ASCII runes are walked. *)
Definition SimpleFold (r : Z) : Z :=
  if r =? 75 then 107              (* K -> k *)
  else if r =? 107 then 8490       (* k -> KELVIN SIGN *)
  else if r =? 8490 then 75        (* KELVIN SIGN -> K *)
  else if r =? 83 then 115         (* S -> s *)
  else if r =? 115 then 383        (* s -> LONG S *)
  else if r =? 383 then 83         (* LONG S -> S *)
  else if within upperA upperZ r then r + 32
  else if within lowerA lowerZ r then r - 32
  else r.

(** The inner loop of [EqualFold]:
    [r := SimpleFold(sr); for r != sr && r < tr { r = SimpleFold(r) }].
    An orbit has at most four members, which bounds the walk. *)
Fixpoint foldUpTo (n : nat) (sr tr r : Z) : Z :=
  match n with
  | O => r
  | S n' =>
    if negb (r =? sr) && (r <? tr) then foldUpTo n' sr tr (SimpleFold r)
    else r
  end.

(** One comparison of the rune loop, after the runes were extracted. *)
Definition foldEq (sr tr : Z) : bool :=
  if tr =? sr then true
  else
    let '(sr, tr) := if tr <? sr then (tr, sr) else (sr, tr) in
    if tr <? RuneSelf then
      within upperA upperZ sr && (tr =? sr + lowerA - upperA)
    else
      foldUpTo 4 sr tr (SimpleFold sr) =? tr.

(** The [hasUnicode] part of [EqualFold]: [s] is ranged over rune by
    rune and one rune is taken off [t] for each.  Every step consumes at
    least one byte of [s], so [String.length s] steps suffice. *)
Fixpoint equalFoldRunes (fuel : nat) (s t : string) : bool :=
  match s with
  | EmptyString => match t with EmptyString => true | _ => false end
  | String _ _ =>
    match fuel with
    | O => false
    | S fuel' =>
      let '(sr, ssize) := DecodeRuneInString s in
      match t with
      | EmptyString => false
      | String c0 t1 =>
        let '(tr, t') :=
          if byte c0 <? RuneSelf then (byte c0, t1)
          else let '(r, size) := DecodeRuneInString t in (r, drop size t) in
        if foldEq sr tr then equalFoldRunes fuel' (drop ssize s) t'
        else false
      end
    end
  end.

(** [strings.EqualFold]: the ASCII fast path runs over the common
    length and hands over to the rune loop at the first byte that is not
    ASCII. *)
Fixpoint EqualFold (s t : string) : bool :=
  match s, t with
  | String a s', String b t' =>
    let sr := byte a in
    let tr := byte b in
    if RuneSelf <=? Z.lor sr tr then equalFoldRunes (String.length s) s t
    else if tr =? sr then EqualFold s' t'
    else
      let '(sr, tr) := if tr <? sr then (tr, sr) else (sr, tr) in
      if within upperA upperZ sr && (tr =? sr + lowerA - upperA)
      then EqualFold s' t'
      else false
  | EmptyString, EmptyString => true
  | _, _ => false
  end.

End Strings.

(** ** The automation binding: variants, native calls and their record *)

Module Ole.
Import Go.

(** A [*ole.IDispatch]: the address of a native object, [None] for nil. *)
Definition IDispatch : Type := option Z.

(** The variant types [VARIANT.Value] tells apart. *)
Inductive VT : Type :=
| VT_EMPTY | VT_NULL | VT_I1 | VT_UI1 | VT_I2 | VT_UI2 | VT_I4 | VT_UI4
| VT_I8 | VT_UI8 | VT_INT | VT_UINT | VT_INT_PTR | VT_UINT_PTR
| VT_R4 | VT_R8 | VT_BSTR | VT_DATE | VT_UNKNOWN | VT_DISPATCH | VT_BOOL
| VT_OTHER (code : Z).

(** [ole.VARIANT]: the type tag and the 64-bit payload; [bstr] is the
    text a [VT_BSTR] payload points to. *)
Record VARIANT : Type := mkVARIANT {
  vt : VT;
  Val : Z;
  bstr : string
}.

(** [ole.VariantInit]. *)
Definition VariantInit : VARIANT := mkVARIANT VT_EMPTY 0 "".

(** Go's integer types, for values held in an [interface{}]. *)
Inductive kind : Type :=
| Int8 | Uint8 | Int16 | Uint16 | Int32 | Uint32 | Int64 | Uint64
| Int | Uint | Uintptr.

(** The values the code holds in an [interface{}]: what [Value] returns
    and what is passed to a native call. *)
Inductive value : Type :=
| VNil
| VInt (k : kind) (n : Z)
| VFloat32 (bits : Z)
| VFloat64 (bits : Z)
| VString (s : string)
| VBool (b : bool)
| VTime (raw : Z)
| VUnknown (p : IDispatch)
| VDispatch (p : IDispatch)
| VVariantPtr (pointee : VARIANT).

Definition ToIDispatch (v : VARIANT) : IDispatch :=
  match vt v with
  | VT_DISPATCH =>
    let p := to_unsigned 64 (Val v) in
    if p =? 0 then None else Some p
  | _ => None
  end.

Definition ToString (v : VARIANT) : string :=
  match vt v with
  | VT_BSTR => bstr v
  | _ => ""
  end.

(** [VARIANT.Value], on a 64-bit platform. *)
Definition Value (v : VARIANT) : value :=
  match vt v with
  | VT_I1 => VInt Int8 (to_signed 8 (Val v))
  | VT_UI1 => VInt Uint8 (to_unsigned 8 (Val v))
  | VT_I2 => VInt Int16 (to_signed 16 (Val v))
  | VT_UI2 => VInt Uint16 (to_unsigned 16 (Val v))
  | VT_I4 => VInt Int32 (int32 (Val v))
  | VT_UI4 => VInt Uint32 (to_unsigned 32 (Val v))
  | VT_I8 => VInt Int64 (int64 (Val v))
  | VT_UI8 => VInt Uint64 (to_unsigned 64 (Val v))
  | VT_INT => VInt Int (int64 (Val v))
  | VT_UINT => VInt Uint (to_unsigned 64 (Val v))
  | VT_INT_PTR | VT_UINT_PTR => VInt Uintptr (to_unsigned 64 (Val v))
  | VT_R4 => VFloat32 (to_unsigned 32 (Val v))
  | VT_R8 => VFloat64 (to_unsigned 64 (Val v))
  | VT_BSTR => VString (ToString v)
  | VT_DATE => VTime (Val v)
  | VT_UNKNOWN =>
    let p := to_unsigned 64 (Val v) in
    VUnknown (if p =? 0 then None else Some p)
  | VT_DISPATCH => VDispatch (ToIDispatch v)
  | VT_BOOL => VBool (negb (Z.land (Val v) 65535 =? 0))
  | VT_EMPTY | VT_NULL | VT_OTHER _ => VNil
  end.

(** The type assertion [x.(int32)], with both of its results. *)
Definition assert_int32 (x : value) : Z * bool :=
  match x with
  | VInt Int32 n => (n, true)
  | _ => (0, false)
  end.

(** What the code asks of the native side. *)
Inductive Call : Type :=
| CallMethod (disp : Z) (name : string) (params : list value)
| GetProperty (disp : Z) (name : string)
| Release (disp : Z).

(** What comes back: a result variant, and what the callee stored
    through the [*VARIANT] parameters, in their order; or an error. *)
Inductive Reply : Type :=
| Returned (res : VARIANT) (byref : list VARIANT)
| Failed (err : error).

(** What a run leaves behind: the native calls with their replies, and
    the warnings handed to the logger. *)
Inductive Event : Type :=
| Native (c : Call) (r : Reply)
| Warning (msg : string).

Definition Trace : Type := list Event.

(** The native side: its reply to a call, given all that happened
    before. *)
Definition Env : Type := Trace -> Call -> Reply.

End Ole.

(** ** Running Go code against the native side *)

Module Run.
Import Ole.

(** A call either returns or panics. *)
Inductive Outcome (A : Type) : Type :=
| Done (a : A)
| Panic.
Arguments Done {A} a.
Arguments Panic {A}.

(** A computation reads what happened before it started and yields its
    outcome with the events it added, oldest first. *)
Definition M (A : Type) : Type := Trace -> Outcome A * Trace.

Definition ret {A} (a : A) : M A := fun _ => (Done a, []).

Definition bind {A B} (m : M A) (k : A -> M B) : M B :=
  fun h =>
    match m h with
    | (Done a, t1) => let '(o, t2) := k a (h ++ t1) in (o, t1 ++ t2)
    | (Panic, t1) => (Panic, t1)
    end.

Definition panic {A} : M A := fun _ => (Panic, []).

Definition emit (e : Event) : M unit := fun _ => (Done tt, [e]).

(** [defer d] at the head of [body]: [d] runs when [body] is left, also
    by a panic, and a panic of [d] replaces the outcome. *)
Definition defer {A} (d : M unit) (body : M A) : M A :=
  fun h =>
    let '(o, t1) := body h in
    match d (h ++ t1) with
    | (Done _, t2) => (o, t1 ++ t2)
    | (Panic, t2) => (Panic, t1 ++ t2)
    end.

Definition outcome {A} (r : Outcome A * Trace) : Outcome A := fst r.
Definition events {A} (r : Outcome A * Trace) : Trace := snd r.

End Run.

Declare Scope go_scope.
Delimit Scope go_scope with go.
Notation "x <- m ;; k" := (Run.bind m (fun x => k))
  (at level 61, m at next level, right associativity) : go_scope.
Notation "m ;;; k" := (Run.bind m (fun _ => k))
  (at level 61, right associativity) : go_scope.

(** ** The storage package *)

Module Storage.
Import Go Utf8 Strings Ole Run.
Local Open Scope go_scope.

(** Source: [type Volume struct]. *)
Record Volume : Type := mkVolume {
  DriveLetter : string;
  Path : string;
  HealthStatus : Z;
  FileSystem : string;
  FileSystemLabel : string;
  FileSystemType : Z;
  Size : Z;
  SizeRemaining : Z;
  DriveType : Z;
  DedupMode : Z;
  handle : IDispatch
}.

(** [Volume{}]. *)
Definition Volume_zero : Volume :=
  mkVolume "" "" 0 "" "" 0 0 0 0 0 None.

Definition set_DriveLetter (v : Volume) (x : string) : Volume :=
  mkVolume x (Path v) (HealthStatus v) (FileSystem v) (FileSystemLabel v)
    (FileSystemType v) (Size v) (SizeRemaining v) (DriveType v) (DedupMode v)
    (handle v).
Definition set_Path (v : Volume) (x : string) : Volume :=
  mkVolume (DriveLetter v) x (HealthStatus v) (FileSystem v)
    (FileSystemLabel v) (FileSystemType v) (Size v) (SizeRemaining v)
    (DriveType v) (DedupMode v) (handle v).
Definition set_FileSystem (v : Volume) (x : string) : Volume :=
  mkVolume (DriveLetter v) (Path v) (HealthStatus v) x (FileSystemLabel v)
    (FileSystemType v) (Size v) (SizeRemaining v) (DriveType v) (DedupMode v)
    (handle v).
Definition set_FileSystemLabel (v : Volume) (x : string) : Volume :=
  mkVolume (DriveLetter v) (Path v) (HealthStatus v) (FileSystem v) x
    (FileSystemType v) (Size v) (SizeRemaining v) (DriveType v) (DedupMode v)
    (handle v).
Definition set_handle (v : Volume) (x : IDispatch) : Volume :=
  mkVolume (DriveLetter v) (Path v) (HealthStatus v) (FileSystem v)
    (FileSystemLabel v) (FileSystemType v) (Size v) (SizeRemaining v)
    (DriveType v) (DedupMode v) x.

(** The fields [Query] fills through a pointer. *)
Inductive numField : Type :=
| fHealthStatus | fFileSystemType | fSize | fSizeRemaining | fDriveType
| fDedupMode.

(** A pointer handed to [assignVariant]: its type, and what it points to
    at the time of the call. *)
Inductive dest : Type :=
| PtrInt32 (cur : Z)
| PtrUint64 (cur : Z).

(** [&v.f] *)
Definition addr (v : Volume) (f : numField) : dest :=
  match f with
  | fHealthStatus => PtrInt32 (HealthStatus v)
  | fFileSystemType => PtrInt32 (FileSystemType v)
  | fSize => PtrUint64 (Size v)
  | fSizeRemaining => PtrUint64 (SizeRemaining v)
  | fDriveType => PtrInt32 (DriveType v)
  | fDedupMode => PtrInt32 (DedupMode v)
  end.

(** [*(&v.f) = x] *)
Definition store (v : Volume) (f : numField) (x : Z) : Volume :=
  match f with
  | fHealthStatus =>
    mkVolume (DriveLetter v) (Path v) x (FileSystem v) (FileSystemLabel v)
      (FileSystemType v) (Size v) (SizeRemaining v) (DriveType v)
      (DedupMode v) (handle v)
  | fFileSystemType =>
    mkVolume (DriveLetter v) (Path v) (HealthStatus v) (FileSystem v)
      (FileSystemLabel v) x (Size v) (SizeRemaining v) (DriveType v)
      (DedupMode v) (handle v)
  | fSize =>
    mkVolume (DriveLetter v) (Path v) (HealthStatus v) (FileSystem v)
      (FileSystemLabel v) (FileSystemType v) x (SizeRemaining v)
      (DriveType v) (DedupMode v) (handle v)
  | fSizeRemaining =>
    mkVolume (DriveLetter v) (Path v) (HealthStatus v) (FileSystem v)
      (FileSystemLabel v) (FileSystemType v) (Size v) x (DriveType v)
      (DedupMode v) (handle v)
  | fDriveType =>
    mkVolume (DriveLetter v) (Path v) (HealthStatus v) (FileSystem v)
      (FileSystemLabel v) (FileSystemType v) (Size v) (SizeRemaining v) x
      (DedupMode v) (handle v)
  | fDedupMode =>
    mkVolume (DriveLetter v) (Path v) (HealthStatus v) (FileSystem v)
      (FileSystemLabel v) (FileSystemType v) (Size v) (SizeRemaining v)
      (DriveType v) x (handle v)
  end.

(** Modelled from the spec: [ExtendedStatus] is declared outside
    volume.go; the spec has it as an opaque record that this code returns
    unpopulated, so its zero value is all there is to it. *)
Inductive ExtendedStatus : Type :=
| ExtendedStatus_zero.

(** Modelled from the spec: [Service] is declared outside volume.go; it
    is the connection object, of which [GetVolumes] uses the [wmiSvc]
    handle only. *)
Record Service : Type := mkService {
  wmiSvc : IDispatch
}.

(** Source: [type VolumeSet struct]. *)
Record VolumeSet : Type := mkVolumeSet {
  Volumes : list Volume
}.

Section Operations.

(** The native side. *)
Variable env : Env.

(** [assignVariant] is declared outside volume.go: it stores a decoded
    value through the pointer or reports why it cannot.  Whatever it
    does, it is given a value and a pointer, and can leave behind a new
    pointee and an error. *)
Variable assignVariant : value -> dest -> Z * option error.

Definition native (c : Call) : M Reply :=
  fun h => (Done (env h c), [Native c (env h c)]).

(** The binding dereferences the object it is given: a call on a nil
    [*ole.IDispatch] panics. *)
Definition oleutil_CallMethod (disp : IDispatch) (name : string)
    (params : list value) : M Reply :=
  match disp with
  | Some d => native (CallMethod d name params)
  | None => panic
  end.

Definition oleutil_GetProperty (disp : IDispatch) (name : string)
    : M Reply :=
  match disp with
  | Some d => native (GetProperty d name)
  | None => panic
  end.

Definition IDispatch_Release (disp : IDispatch) : M unit :=
  match disp with
  | Some d => native (Release d) ;;; ret tt
  | None => panic
  end.

Definition logger_Warningf (msg : string) : M unit := emit (Warning msg).

(** The methods of [*Volume] yield the receiver as they leave it, then
    their results. *)

(** Source: [func (v *Volume) Close()]. *)
Definition Close (v : Volume) : M Volume :=
  match handle v with
  | Some _ => IDispatch_Release (handle v) ;;; ret v
  | None => ret v
  end.

(** Source: [func (v *Volume) Flush() error]. *)
Definition Flush (v : Volume) : M (Volume * option error) :=
  r <- oleutil_CallMethod (handle v) "Flush" [] ;;
  match r with
  | Failed err => ret (v, Some (Errorf_w "Flush: " err))
  | Returned res _ =>
    let '(val, ok) := assert_int32 (Value res) in
    if negb (val =? 0) || negb ok
    then ret (v, Some (Errorf ("error code returned during flush: "
                               ++ fmt_d val)))
    else ret (v, None)
  end.

(** Source: [func (v *Volume) Format(...) (Volume, ExtendedStatus, error)]. *)
Definition Format (v : Volume) (fs fsLabel : string)
    (allocationUnitSize : Z)
    (full force compress shortFileNameSupport setIntegrityStreams
     useLargeFRS disableHeatGathering : bool)
    : M (Volume * (Volume * ExtendedStatus * option error)) :=
  let vol := Volume_zero in
  let stat := ExtendedStatus_zero in
  let extendedStatus := VariantInit in
  let formattedVolume := VariantInit in
  let ialloc :=
    if negb (allocationUnitSize =? 0) then VInt Int32 allocationUnitSize
    else VNil in
  let '(iintegrity, ilfrs, ishortn, icompress) :=
    if EqualFold "ReFS" fs
    then (VBool setIntegrityStreams, VBool useLargeFRS, VNil, VNil)
    else (VNil, VNil, VBool shortFileNameSupport, VBool compress) in
  r <- oleutil_CallMethod (handle v) "Format"
         [VString fs; VString fsLabel; ialloc; VBool full; VBool force;
          icompress; ishortn; iintegrity; ilfrs; VBool disableHeatGathering;
          VVariantPtr formattedVolume; VVariantPtr extendedStatus] ;;
  match r with
  | Failed err => ret (v, (vol, stat, Some (Errorf_w "Format: " err)))
  | Returned res byref =>
    let '(val, ok) := assert_int32 (Value res) in
    if negb (val =? 0) || negb ok
    then ret (v, (vol, stat,
                  Some (Errorf ("error code returned during formatting: "
                                ++ fmt_d val))))
    else
      let formattedVolume := nth 0 byref formattedVolume in
      let vol := set_handle vol (ToIDispatch formattedVolume) in
      ret (v, (vol, stat, None))
  end.

(** Source: [func (v *Volume) Optimize(...) (ExtendedStatus, error)]. *)
Definition Optimize (v : Volume)
    (reTrim analyze defrag slabConslidate tierOptimize : bool)
    : M (Volume * (ExtendedStatus * option error)) :=
  let stat := ExtendedStatus_zero in
  let extendedStatus := VariantInit in
  r <- oleutil_CallMethod (handle v) "Optimize"
         [VBool reTrim; VBool analyze; VBool defrag; VBool slabConslidate;
          VBool tierOptimize; VVariantPtr extendedStatus] ;;
  match r with
  | Failed err => ret (v, (stat, Some (Errorf_w "Optimize: " err)))
  | Returned res _ =>
    let '(val, ok) := assert_int32 (Value res) in
    if negb (val =? 0) || negb ok
    then ret (v, (stat,
                  Some (Errorf ("error code returned during optimization: "
                                ++ fmt_d val))))
    else ret (v, (stat, None))
  end.

(** Source: [func (v *Volume) SetFileSystemLabel(string) (ExtendedStatus, error)]. *)
Definition SetFileSystemLabel (v : Volume) (fileSystemLabel : string)
    : M (Volume * (ExtendedStatus * option error)) :=
  let stat := ExtendedStatus_zero in
  let extendedStatus := VariantInit in
  r <- oleutil_CallMethod (handle v) "SetFileSystemLabel"
         [VString fileSystemLabel; VVariantPtr extendedStatus] ;;
  match r with
  | Failed err =>
    ret (v, (stat, Some (Errorf_w "SetFileSystemLabel: " err)))
  | Returned res _ =>
    let '(val, ok) := assert_int32 (Value res) in
    if negb (val =? 0) || negb ok
    then ret (v, (stat,
                  Some (Errorf
                          ("error code returned during setting file system label: "
                           ++ fmt_d val))))
    else ret (v, (stat, None))
  end.

(** [p, err := oleutil.GetProperty(v.handle, name)] followed by the
    return of the wrapped error when there is one. *)
Definition getOrReturn (v : Volume) (name : string)
    (k : VARIANT -> M (Volume * option error))
    : M (Volume * option error) :=
  r <- oleutil_GetProperty (handle v) name ;;
  match r with
  | Failed err =>
    ret (v, Some (Errorf_w ("oleutil.GetProperty(" ++ name ++ "): ") err))
  | Returned p _ => k p
  end.

(** The name and destination pairs of the loop in [Query]. *)
Definition nonStrings : list (string * numField) :=
  [("HealthStatus", fHealthStatus); ("FileSystemType", fFileSystemType);
   ("Size", fSize); ("SizeRemaining", fSizeRemaining);
   ("DriveType", fDriveType); ("DedupMode", fDedupMode)].

(** The loop over the non-string properties. *)
Fixpoint queryNonStrings (ps : list (string * numField)) (v : Volume)
    : M (Volume * option error) :=
  match ps with
  | [] => ret (v, None)
  | (name, f) :: ps' =>
    getOrReturn v name (fun prop =>
      let '(x, e) := assignVariant (Value prop) (addr v f) in
      let v := store v f x in
      match e with
      | Some err =>
        logger_Warningf ("assignVariant(" ++ name ++ "): " ++ Error err)
      | None => ret tt
      end ;;;
      queryNonStrings ps' v)
  end.

(** Source: [func (v *Volume) Query() error]. *)
Definition Query (v : Volume) : M (Volume * option error) :=
  match handle v with
  | None => ret (v, Some (Errorf "invalid handle"))
  | Some _ =>
    getOrReturn v "DriveLetter" (fun p =>
    let v := set_DriveLetter v (EncodeRune (int32 (Val p))) in
    getOrReturn v "Path" (fun p =>
    let v := set_Path v (ToString p) in
    getOrReturn v "FileSystem" (fun p =>
    let v := set_FileSystem v (ToString p) in
    getOrReturn v "FileSystemLabel" (fun p =>
    let v := set_FileSystemLabel v (ToString p) in
    queryNonStrings nonStrings v))))
  end.

(** Source: [func (s *VolumeSet) Close()]; the loop variable is a copy
    of each element. *)
Fixpoint closeAll (vs : list Volume) : M unit :=
  match vs with
  | [] => ret tt
  | v :: vs' => Close v ;;; closeAll vs'
  end.

Definition VolumeSet_Close (s : VolumeSet) : M VolumeSet :=
  closeAll (Volumes s) ;;; ret s.

(** The loop of [GetVolumes]: [n] iterations are left, [i] is the loop
    variable. *)
Fixpoint enumerate (result : IDispatch) (n : nat) (i : Z) (vset : VolumeSet)
    : M (VolumeSet * option error) :=
  match n with
  | O => ret (vset, None)
  | S n' =>
    let v := Volume_zero in
    r <- oleutil_CallMethod result "ItemIndex" [VInt Int i] ;;
    match r with
    | Failed err =>
      ret (vset,
           Some (Errorf_w ("oleutil.CallMethod(ItemIndex, " ++ fmt_d i ++ "): ")
                          err))
    | Returned itemRaw _ =>
      let v := set_handle v (ToIDispatch itemRaw) in
      q <- Query v ;;
      match q with
      | (_, Some err) => ret (vset, Some err)
      | (v, None) =>
        let vset := mkVolumeSet (Volumes vset ++ [v]) in
        enumerate result n' (i + 1) vset
      end
    end
  end.

(** Source: [func (svc Service) GetVolumes(filter string) (VolumeSet, error)]. *)
Definition GetVolumes (svc : Service) (filter : string)
    : M (VolumeSet * option error) :=
  let vset := mkVolumeSet [] in
  let query := "SELECT * FROM MSFT_Volume" in
  let query :=
    if negb (filter =? "")%string then (query ++ " " ++ filter)%string
    else query in
  r <- oleutil_CallMethod (wmiSvc svc) "ExecQuery" [VString query] ;;
  match r with
  | Failed err =>
    ret (vset, Some (Errorf_w ("ExecQuery(" ++ query ++ "): ") err))
  | Returned raw _ =>
    let result := ToIDispatch raw in
    defer (IDispatch_Release result) (
      c <- oleutil_GetProperty result "Count" ;;
      match c with
      | Failed err =>
        ret (vset, Some (Errorf_w "oleutil.GetProperty(Count): " err))
      | Returned countVar _ =>
        let count := int64 (Val countVar) in
        enumerate result (Z.to_nat count) 0 vset
      end)
  end.

End Operations.

End Storage.

(** * Properties *)

Module Props.
Import Go Utf8 Strings Ole Run Storage.
Local Open Scope go_scope.

(** A native side that answers every call the same way. *)
Definition steady (r : Reply) : Env := fun _ _ => r.

Definition ok_i4 (n : Z) : VARIANT := mkVARIANT VT_I4 n "".
Definition ok_dispatch (p : Z) : VARIANT := mkVARIANT VT_DISPATCH p "".

(** A volume that holds the native object at address 1. *)
Definition vol1 : Volume := set_handle Volume_zero (Some 1).

(** [assignVariant] stand-ins: one that stores nothing and succeeds, one
    that stores nothing and fails. *)
Definition keep (p : dest) : Z :=
  match p with PtrInt32 c | PtrUint64 c => c end.
Definition assign_ok (_ : value) (p : dest) : Z * option error :=
  (keep p, None).
Definition assign_fail (_ : value) (p : dest) : Z * option error :=
  (keep p, Some (Errorf "unsupported")).

(** A native side for the examples: a query that finds two objects, of
    which the first (at address 20) can be fetched and read and the
    second cannot be fetched; formatting succeeds and yields the object
    at address 2; flushing answers status 5. *)
Definition sample_env : Env := fun _ c =>
  match c with
  | CallMethod _ name params =>
    if (name =? "ExecQuery")%string then Returned (ok_dispatch 10) []
    else if (name =? "ItemIndex")%string then
      match params with
      | [VInt Int 0] => Returned (ok_dispatch 20) []
      | _ => Failed (Errorf "item not available")
      end
    else if (name =? "Format")%string then
      Returned (ok_i4 0) [ok_dispatch 2; VariantInit]
    else if (name =? "Flush")%string then Returned (ok_i4 5) []
    else Returned (ok_i4 0) []
  | GetProperty _ name =>
    if (name =? "Count")%string then Returned (ok_i4 2) []
    else if (name =? "DriveLetter")%string
    then Returned (mkVARIANT VT_UI2 67 "") []
    else Returned (mkVARIANT VT_BSTR 0 "NTFS") []
  | Release _ => Returned (ok_i4 0) []
  end.

(** A query that finds nothing. *)
Definition empty_env : Env := fun _ c =>
  match c with
  | CallMethod _ _ _ => Returned (ok_dispatch 10) []
  | _ => Returned (ok_i4 0) []
  end.

Definition svc1 : Service := mkService (Some 7).

(** A native side on which the Size property cannot be read. *)
Definition size_unreadable_env : Env := fun h c =>
  match c with
  | GetProperty _ name =>
    if (name =? "Size")%string then Failed (Errorf "access denied")
    else sample_env h c
  | _ => sample_env h c
  end.

(** The first object of [sample_env], as [Query] reads it. *)
Definition volC : Volume :=
  mkVolume "C" "NTFS" 0 "NTFS" "NTFS" 0 0 0 0 0 (Some 20).

(** The spec's reading of [Close]: a second call in a row releases
    nothing. *)
Definition Close_second_is_noop (e : Env) (v : Volume) (h : Trace) : Prop :=
  forall v1 t1,
    Close e v h = (Done v1, t1) ->
    events (Close e v1 (h ++ t1)) = [].

(** The spec's reading of a successful [Format]: the Volume it was
    called on now holds the handle of the formatted volume. *)
Definition Format_replaces_handle (e : Env) (v : Volume) (fs : string)
    (h : Trace) : Prop :=
  forall v' vol stat,
    outcome (Format e v fs "" 0 false false false false false false false h)
      = Done (v', (vol, stat, None)) ->
    handle v' = handle vol.

(** What the four mutating methods make of the reply to their native
    call: [ctx] is the context put before a native error, [during] the
    text put before a status code. *)
Definition status_contract (ctx during : string) (reply : Reply)
    (err : option error) : Prop :=
  match reply with
  | Failed e =>
    err = Some (Errorf_w ctx e) /\
    (exists e', err = Some e' /\ Unwrap e' = Some e /\
                Error e' = (ctx ++ Error e)%string)
  | Returned res _ =>
    forall code, Value res = VInt Int32 code ->
      (code <> 0 ->
       exists e', err = Some e' /\
                  Error e' = (during ++ fmt_d code)%string /\
                  Contains (Error e') (fmt_d code) = true) /\
      (code = 0 -> err = None)
  end.

(** The twelve arguments of the native Format call. *)
Definition Format_params (fs fsLabel : string)
    (alloc compress shortn integrity lfrs : value)
    (full force disableHeatGathering : bool) : list value :=
  [VString fs; VString fsLabel; alloc; VBool full; VBool force;
   compress; shortn; integrity; lfrs; VBool disableHeatGathering;
   VVariantPtr VariantInit; VVariantPtr VariantInit].

(** The native Format call [Format] makes on the object [d]. *)
Definition Format_call (d : Z) (fs fsLabel : string) (alloc : Z)
    (full force compress shortn integrity lfrs dhg : bool) : Call :=
  let refs := EqualFold "ReFS" fs in
  CallMethod d "Format"
    (Format_params fs fsLabel
       (if alloc =? 0 then VNil else VInt Int32 alloc)
       (if refs then VNil else VBool compress)
       (if refs then VNil else VBool shortn)
       (if refs then VBool integrity else VNil)
       (if refs then VBool lfrs else VNil)
       full force dhg).

(** The native call that runs the query of [GetVolumes]. *)
Definition ExecQuery_call (d : Z) (filter : string) : Call :=
  CallMethod d "ExecQuery"
    [VString (if (filter =? "")%string then "SELECT * FROM MSFT_Volume"
              else "SELECT * FROM MSFT_Volume " ++ filter)].

(** One turn of the loop of [GetVolumes] on its own: item [i] is
    fetched and queried, and is either a Volume to append or the error
    the call returns. *)
Definition fetch (env : Env)
    (assignVariant : value -> dest -> Z * option error)
    (result : IDispatch) (i : Z) : M (Volume + error) :=
  r <- oleutil_CallMethod env result "ItemIndex" [VInt Int i] ;;
  match r with
  | Failed err =>
    ret (inr (Errorf_w
                ("oleutil.CallMethod(ItemIndex, " ++ fmt_d i ++ "): ") err))
  | Returned itemRaw _ =>
    q <- Query env assignVariant
           (set_handle Volume_zero (ToIDispatch itemRaw)) ;;
    match q with
    | (_, Some err) => ret (inr err)
    | (v, None) => ret (inl v)
    end
  end.

(** [fetched env av result i h vs t]: starting after [h], the items
    from [i] on were fetched and queried without failure, one for each
    Volume of [vs], and that added the events [t]. *)
Inductive fetched (env : Env)
    (assignVariant : value -> dest -> Z * option error)
    (result : IDispatch) : Z -> Trace -> list Volume -> Trace -> Prop :=
| fetched_none (i : Z) (h : Trace) :
    fetched env assignVariant result i h [] []
| fetched_more (i : Z) (h : Trace) (v : Volume) (t : Trace)
    (vs : list Volume) (t' : Trace) :
    fetch env assignVariant result i h = (Done (inl v), t) ->
    fetched env assignVariant result (i + 1) (h ++ t) vs t' ->
    fetched env assignVariant result i h (v :: vs) (t ++ t').


(** The long s, U+017F, in UTF-8. *)
Definition longS : string := String (chr 197) (String (chr 191) "").

(** Every spelling that folds to "ReFS": either case of each letter,
    and the long s for the last. *)
Definition ReFS_spellings : list string :=
  flat_map (fun r =>
    flat_map (fun e =>
      flat_map (fun f =>
        map (fun s => r ++ e ++ f ++ s)%string ["S"; "s"; longS])
        ["F"; "f"])
      ["e"; "E"])
    ["R"; "r"].

(** The native calls of a trace, in order. *)
Definition calls (t : Trace) : list Call :=
  flat_map (fun e => match e with Native c _ => [c] | Warning _ => [] end) t.

(** The objects a trace releases, in order. *)
Definition releases (t : Trace) : list Z :=
  flat_map (fun e =>
              match e with
              | Native (Release d) _ => [d]
              | _ => []
              end) t.

(** The handles a list of Volumes holds, in order. *)
Definition held (vs : list Volume) : list Z :=
  flat_map (fun v => match handle v with Some d => [d] | None => [] end) vs.

(** The properties [Query] reads, in the order of the source. *)
Definition Query_names : list string :=
  ["DriveLetter"; "Path"; "FileSystem"; "FileSystemLabel"]
    ++ map fst nonStrings.

(** A run [r] of reads on the object [d] that go through [names] in
    order: it returns; the Volume it leaves still holds [d] and satisfies
    [P]; its native calls are the reads of the first [k] names; and with no
    error all the names were read. *)
Definition Query_shape (d : Z) (P : Volume -> Prop) (names : list string)
    (r : Outcome (Volume * option error) * Trace) : Prop :=
  exists v' err k,
    outcome r = Done (v', err) /\
    handle v' = Some d /\
    P v' /\
    (k <= List.length names)%nat /\
    calls (events r) = map (GetProperty d) (firstn k names) /\
    (err = None -> k = List.length names).

(** The Volume [v] holds the object that the call ItemIndex([i]) on
    [rd] returned in the trace [t]. *)
Definition issued (rd : Z) (t : Trace) (i : Z) (v : Volume) : Prop :=
  exists itemRaw byref,
    In (Native (CallMethod rd "ItemIndex" [VInt Int i])
          (Returned itemRaw byref)) t /\
    handle v = ToIDispatch itemRaw /\
    handle v <> None.

(** A native side whose every answer is the unsigned 32-bit integer 0. *)
Definition unsigned_env : Env := steady (Returned (mkVARIANT VT_UI4 0 "") []).

(** The text of the query [GetVolumes] runs for [filter]. *)
Definition query_text (filter : string) : string :=
  if (filter =? "")%string then "SELECT * FROM MSFT_Volume"
  else "SELECT * FROM MSFT_Volume " ++ filter.

(** A native side whose every call fails. *)
Definition failing_env : Env := steady (Failed (Errorf "RPC server unavailable")).

(** A native side on which the query gives a result object whose count
    cannot be read. *)
Definition count_unreadable_env : Env := fun _ c =>
  match c with
  | CallMethod _ _ _ => Returned (ok_dispatch 10) []
  | GetProperty _ _ => Failed (Errorf "access denied")
  | Release _ => Returned (ok_i4 0) []
  end.

(** A native side like [sample_env], with a result of one object. *)
Definition one_volume_env : Env := fun h c =>
  match c with
  | GetProperty _ name =>
    if (name =? "Count")%string then Returned (ok_i4 1) []
    else sample_env h c
  | _ => sample_env h c
  end.






(** ** Case folding against "ReFS" *)

Lemma byte_range (c : ascii) : 0 <= byte c < 256.
Proof.
  unfold byte. pose proof (N_ascii_bounded c). lia.
Qed.

Lemma chr_byte (c : ascii) : chr (byte c) = c.
Proof.
  unfold chr, byte. pose proof (N_ascii_bounded c).
  rewrite Z.mod_small by lia. rewrite N2Z.id. apply ascii_N_embedding.
Qed.

Lemma lor_ge_l (x y : Z) : 0 <= x -> 0 <= y -> x <= Z.lor x y.
Proof.
  intros Hx Hy. pose proof (Z.sub_lor_l_same_l y x) as E.
  assert (0 <= Z.land y (Z.lnot x)) by (apply Z.land_nonneg; left; exact Hy).
  lia.
Qed.

Lemma lor_ge_r (x y : Z) : 0 <= x -> 0 <= y -> y <= Z.lor x y.
Proof. intros. rewrite Z.lor_comm. apply lor_ge_l; assumption. Qed.

Lemma lor_le_add (x y : Z) : 0 <= x -> 0 <= y -> Z.lor x y <= x + y.
Proof.
  intros Hx Hy. pose proof (Z.add_lor_land x y).
  assert (0 <= Z.land x y) by (apply Z.land_nonneg; left; exact Hx). lia.
Qed.


Lemma land_63 (b : Z) : Z.land b 63 = b mod 64.
Proof. change 63 with (Z.ones 6). apply Z.land_ones. lia. Qed.
Lemma land_31 (b : Z) : Z.land b 31 = b mod 32.
Proof. change 31 with (Z.ones 5). apply Z.land_ones. lia. Qed.
Lemma land_15 (b : Z) : Z.land b 15 = b mod 16.
Proof. change 15 with (Z.ones 4). apply Z.land_ones. lia. Qed.
Lemma land_7 (b : Z) : Z.land b 7 = b mod 8.
Proof. change 7 with (Z.ones 3). apply Z.land_ones. lia. Qed.

Ltac rune_error :=
  intros [= <- <-]; unfold RuneError; split; [lia|intros E; discriminate E].

Ltac take_pair :=
  let E := fresh in
  intros E; apply pair_equal_spec in E; destruct E as [<- <-].

Ltac tests_to_props :=
  repeat match goal with
  | H : (_ && _) = true |- _ => apply andb_prop in H; destruct H
  | H : (_ || _) = false |- _ => apply orb_false_elim in H; destruct H
  | H : negb _ = false |- _ => apply negb_false_iff in H
  | H : (_ <=? _) = true |- _ => apply Z.leb_le in H
  | H : (_ <? _) = true |- _ => apply Z.ltb_lt in H
  | H : (_ <? _) = false |- _ => apply Z.ltb_ge in H
  end.

(** A rune that starts with a byte outside ASCII is outside ASCII, and
    is the long s only when spelled C5 BF. *)
Lemma DecodeRune_nonascii (c : ascii) (t : string) (r : Z) (n : nat) :
  128 <= byte c ->
  DecodeRuneInString (String c t) = (r, n) ->
  128 <= r /\
  (r = 383 ->
   c = chr 197 /\ n = 2%nat /\ exists t', t = String (chr 191) t').
Proof.
  intros Hc. unfold DecodeRuneInString.
  pose proof (byte_range c) as Rc.
  destruct (Z.ltb_spec (byte c) RuneSelf) as [L|_]; [unfold RuneSelf in L; lia|].
  destruct t as [|c1 t1]; [rune_error|].
  pose proof (byte_range c1) as Rc1.
  destruct (within 194 223 (byte c)) eqn:W2.
  - destruct (cont (byte c1)) eqn:C1; [|rune_error].
    unfold within, cont in *. tests_to_props.
    rewrite land_31, land_63, Z.shiftl_mul_pow2 by lia. take_pair.
    pose proof (lor_ge_l (byte c mod 32 * 2 ^ 6) (byte c1 mod 64)).
    pose proof (lor_le_add (byte c mod 32 * 2 ^ 6) (byte c1 mod 64)).
    change (2 ^ 6) with 64 in *.
    split; [Z.to_euclidean_division_equations; lia|].
    intros E.
    assert (byte c = 197 /\ byte c1 = 191) as [E0 E1]
      by (Z.to_euclidean_division_equations; lia).
    rewrite <- (chr_byte c), <- (chr_byte c1), E0, E1. eauto.
  - match goal with
    | |- context [if ?b then (RuneError, 1%nat) else _] =>
      destruct b eqn:W3; [rune_error|]
    end.
    destruct t1 as [|c2 t2]; [rune_error|].
    pose proof (byte_range c2) as Rc2.
    destruct (negb (cont (byte c2))); [rune_error|].
    unfold within in W3.
    assert (224 <= byte c <= 244 /\
            (byte c = 224 -> 160 <= byte c1) /\
            (byte c = 240 -> 144 <= byte c1) /\ 128 <= byte c1 <= 191)
      as (R0 & R224 & R240 & R1).
    { destruct (Z.eqb_spec (byte c) 224), (Z.eqb_spec (byte c) 240),
        (Z.eqb_spec (byte c) 237), (Z.eqb_spec (byte c) 244);
        tests_to_props; lia. }
    clear W3.
    destruct (Z.ltb_spec (byte c) 240) as [L3|L3].
    + rewrite land_15, !land_63, !Z.shiftl_mul_pow2 by lia. take_pair.
      change (2 ^ 6) with 64. change (2 ^ 12) with 4096.
      set (hi := byte c mod 16 * 4096).
      set (mid := byte c1 mod 64 * 64).
      set (lo := byte c2 mod 64).
      assert (0 <= hi /\ 0 <= mid /\ 0 <= lo) as (? & ? & ?)
        by (subst hi mid lo; Z.to_euclidean_division_equations; lia).
      pose proof (lor_ge_l mid lo).
      pose proof (lor_ge_l hi (Z.lor mid lo)).
      pose proof (lor_ge_r hi (Z.lor mid lo)).
      assert (2048 <= hi \/ 2048 <= mid).
      { subst hi mid.
        destruct (Z.eq_dec (byte c) 224) as [E|E];
          [specialize (R224 E)|]; Z.to_euclidean_division_equations; lia. }
      split; [lia|intros E; lia].
    + destruct t2 as [|c3 t3]; [rune_error|].
      pose proof (byte_range c3) as Rc3.
      destruct (negb (cont (byte c3))); [rune_error|].
      rewrite land_7, !land_63, !Z.shiftl_mul_pow2 by lia. take_pair.
      change (2 ^ 6) with 64. change (2 ^ 12) with 4096.
      change (2 ^ 18) with 262144.
      set (top := byte c mod 8 * 262144).
      set (hi := byte c1 mod 64 * 4096).
      set (rest := Z.lor (byte c2 mod 64 * 64) (byte c3 mod 64)).
      assert (0 <= top /\ 0 <= hi) as (? & ?)
        by (subst top hi; Z.to_euclidean_division_equations; lia).
      assert (0 <= rest).
      { subst rest. apply Z.lor_nonneg.
        Z.to_euclidean_division_equations; lia. }
      pose proof (lor_ge_l hi rest).
      pose proof (lor_ge_l top (Z.lor hi rest)).
      pose proof (lor_ge_r top (Z.lor hi rest)).
      assert (65536 <= top \/ 65536 <= hi).
      { subst top hi.
        destruct (Z.eq_dec (byte c) 240) as [E|E];
          [specialize (R240 E)|]; Z.to_euclidean_division_equations; lia. }
      split; [lia|intros E; lia].
Qed.

Lemma lor_ascii (x y : Z) :
  0 <= x < 128 -> 0 <= y < 256 ->
  (RuneSelf <=? Z.lor x y) = (RuneSelf <=? y).
Proof.
  intros Hx Hy. unfold RuneSelf.
  destruct (Z.leb_spec 128 y) as [L|L].
  - apply Z.leb_le. pose proof (lor_ge_r x y). lia.
  - apply Z.leb_gt.
    assert (0 <= Z.lor x y) by (apply Z.lor_nonneg; lia).
    destruct (Z.eq_dec (Z.lor x y) 0) as [E|E]; [lia|].
    change 128 with (2 ^ 7). apply Z.log2_lt_pow2; [lia|].
    rewrite Z.log2_lor by lia.
    assert (Z.log2 x < 7).
    { destruct (Z.eq_dec x 0) as [->|]; [cbn; lia|].
      apply Z.log2_lt_pow2; change (2 ^ 7) with 128; lia. }
    assert (Z.log2 y < 7).
    { destruct (Z.eq_dec y 0) as [->|]; [cbn; lia|].
      apply Z.log2_lt_pow2; change (2 ^ 7) with 128; lia. }
    lia.
Qed.

(** The ASCII fast path against a letter: the other byte is the same
    letter in either case, or it is not ASCII and the rune loop decides. *)
Lemma EqualFold_letter (a c : ascii) (s' t' : string) :
  byte a < 128 ->
  EqualFold (String a s') (String c t') = true ->
  ((byte c = byte a \/
    (byte c = byte a + 32 /\ 65 <= byte a <= 90) \/
    (byte a = byte c + 32 /\ 65 <= byte c <= 90)) /\
   EqualFold s' t' = true) \/
  (128 <= byte c /\
   equalFoldRunes (S (String.length s')) (String a s') (String c t') = true).
Proof.
  intros Ha. cbn [EqualFold].
  pose proof (byte_range a). pose proof (byte_range c).
  rewrite lor_ascii by lia. unfold RuneSelf.
  destruct (Z.leb_spec 128 (byte c)) as [L|L]; [intros Heq; right; auto|].
  destruct (Z.eqb_spec (byte c) (byte a)) as [E|E];
    [intros Heq; left; split; auto|].
  destruct (Z.ltb_spec (byte c) (byte a)) as [L'|L'];
    unfold within, upperA, upperZ, lowerA;
    match goal with
    | |- context [(?p <=? ?q) && (?u <=? ?v) && (?w =? ?z)] =>
      destruct (Z.leb_spec p q), (Z.leb_spec u v), (Z.eqb_spec w z)
    end; cbn [andb]; intros Heq; try discriminate Heq;
    left; split; auto; lia.
Qed.

(** The rune loop, one step, when the next byte of [t] is not ASCII. *)
Lemma equalFoldRunes_head (a c : ascii) (s' t' : string) (n : nat) :
  byte a < 128 -> 128 <= byte c ->
  equalFoldRunes (S n) (String a s') (String c t') = true ->
  exists tr size,
    DecodeRuneInString (String c t') = (tr, size) /\
    foldEq (byte a) tr = true /\
    equalFoldRunes n s' (drop size (String c t')) = true.
Proof.
  intros Ha Hc. cbn [equalFoldRunes].
  assert (DecodeRuneInString (String a s') = (byte a, 1%nat)) as ->.
  { unfold DecodeRuneInString, RuneSelf.
    destruct (Z.ltb_spec (byte a) 128); [reflexivity|lia]. }
  unfold RuneSelf at 1.
  destruct (Z.ltb_spec (byte c) 128) as [L|_]; [lia|].
  destruct (DecodeRuneInString (String c t')) as [tr size].
  destruct (foldEq (byte a) tr) eqn:F; [|discriminate].
  intros H. exists tr, size. auto.
Qed.

(** Of the letters of "ReFS", only S has a rune outside ASCII in its
    orbit, the long s. *)
Lemma foldEq_letter_nonascii (x tr : Z) :
  In x [82; 101; 70; 83] -> 128 <= tr ->
  foldEq x tr = true -> x = 83 /\ tr = 383.
Proof.
  intros Hx Htr. unfold foldEq, RuneSelf.
  destruct (Z.eqb_spec tr x) as [E|_];
    [destruct Hx as [<-|[<-|[<-|[<-|[]]]]]; lia|].
  destruct (Z.ltb_spec tr x) as [L|_];
    [destruct Hx as [<-|[<-|[<-|[<-|[]]]]]; lia|].
  destruct (Z.ltb_spec tr 128) as [L|_]; [lia|].
  destruct Hx as [<-|[<-|[<-|[<-|[]]]]]; cbn [foldUpTo];
    repeat first
      [ match goal with
        | |- context [SimpleFold ?k] =>
          let v := eval vm_compute in (SimpleFold k) in
          change (SimpleFold k) with v
        | |- context [negb (?p =? ?q)] =>
          let v := eval vm_compute in (negb (p =? q)) in
          change (negb (p =? q)) with v
        end
      | progress cbn [andb]
      | match goal with
        | |- context [?p <? tr] => destruct (Z.ltb_spec p tr)
        end ];
    match goal with
    | |- context [?p =? tr] => destruct (Z.eqb_spec p tr)
    end; intros Hf; try discriminate Hf; lia.
Qed.

(** One letter of "ReFS" against the byte [c]: [c] is the letter [k] or
    its other case [k'], since a byte outside ASCII cannot fold to a
    letter other than S. *)
Ltac letter_step H c k k' Hk :=
  apply EqualFold_letter in H; [|vm_compute; reflexivity];
  destruct H as [[Hc H]|[Hc H]];
  [ assert (c = chr k \/ c = chr k') as Hk
      by (rewrite <- (chr_byte c);
          change (byte (chr k)) with k in Hc;
          assert (byte c = k \/ byte c = k') as [->| ->] by lia; auto);
    clear Hc
  | exfalso;
    apply equalFoldRunes_head in H; [|vm_compute; reflexivity|exact Hc];
    destruct H as (tr & size & Hd & Hf & _);
    apply DecodeRune_nonascii in Hd; [|exact Hc];
    apply foldEq_letter_nonascii in Hf;
      [destruct Hf as [Hf _]; discriminate Hf
      |vm_compute; tauto
      |tauto] ].

(** [EqualFold "ReFS" fs] holds for the twenty-four spellings of
    [ReFS_spellings] and for no other string: the comparison ignores the
    case of the four letters, and Unicode folding makes the long s a
    spelling of the last one. *)
Theorem EqualFold_ReFS (fs : string) :
  EqualFold "ReFS" fs = true <-> In fs ReFS_spellings.
Proof.
  split.
  - intros H.
    destruct fs as [|c0 fs]; [discriminate H|].
    change "ReFS" with (String (chr 82) "eFS") in H.
    letter_step H c0 82 114 K0.
    destruct fs as [|c1 fs]; [discriminate H|].
    change "eFS" with (String (chr 101) "FS") in H.
    letter_step H c1 101 69 K1.
    destruct fs as [|c2 fs]; [discriminate H|].
    change "FS" with (String (chr 70) "S") in H.
    letter_step H c2 70 102 K2.
    destruct fs as [|c3 fs]; [discriminate H|].
    change "S" with (String (chr 83) "") in H.
    apply EqualFold_letter in H; [|vm_compute; reflexivity].
    destruct H as [[Hc H]|[Hc H]].
    + assert (c3 = chr 83 \/ c3 = chr 115) as Hk3
        by (rewrite <- (chr_byte c3);
            change (byte (chr 83)) with 83 in Hc;
            assert (byte c3 = 83 \/ byte c3 = 115) as [->| ->] by lia; auto).
      destruct fs; [|discriminate H].
      destruct K0 as [-> | ->], K1 as [-> | ->], K2 as [-> | ->],
        Hk3 as [-> | ->]; vm_compute; tauto.
    + apply equalFoldRunes_head in H; [|vm_compute; reflexivity|exact Hc].
      destruct H as (tr & size & Hd & Hf & H).
      apply DecodeRune_nonascii in Hd; [|exact Hc].
      apply foldEq_letter_nonascii in Hf; [|vm_compute; tauto|tauto].
      destruct Hf as [_ ->].
      destruct Hd as [_ Hd]. destruct (Hd eq_refl) as (-> & -> & t' & ->).
      cbn [drop equalFoldRunes] in H. destruct t'; [|discriminate H].
      destruct K0 as [-> | ->], K1 as [-> | ->], K2 as [-> | ->];
        vm_compute; tauto.
  - intros H. vm_compute in H.
    repeat (destruct H as [<-|H]; [reflexivity|]). destruct H.
Qed.

(** Folding walks an orbit of at most three runes. *)
Lemma SimpleFold_orbit (r : Z) :
  SimpleFold r = r \/ SimpleFold (SimpleFold r) = r \/
  SimpleFold (SimpleFold (SimpleFold r)) = r.
Proof.
  assert (Hup : 65 <= r <= 90 -> r <> 75 -> r <> 83 ->
                SimpleFold r = r + 32 /\ SimpleFold (r + 32) = r).
  { intros R N1 N2. unfold SimpleFold, within, upperA, upperZ, lowerA, lowerZ.
    repeat match goal with
    | |- context [?p =? ?q] => destruct (Z.eqb_spec p q); try lia
    | |- context [?p <=? ?q] => destruct (Z.leb_spec p q); try lia
    end; cbn [andb]; lia. }
  assert (Hlo : 97 <= r <= 122 -> r <> 107 -> r <> 115 ->
                SimpleFold r = r - 32 /\ SimpleFold (r - 32) = r).
  { intros R N1 N2. unfold SimpleFold, within, upperA, upperZ, lowerA, lowerZ.
    repeat match goal with
    | |- context [?p =? ?q] => destruct (Z.eqb_spec p q); try lia
    | |- context [?p <=? ?q] => destruct (Z.leb_spec p q); try lia
    end; cbn [andb]; lia. }
  destruct (Z.eq_dec r 75) as [->|]; [right; right; reflexivity|].
  destruct (Z.eq_dec r 107) as [->|]; [right; right; reflexivity|].
  destruct (Z.eq_dec r 8490) as [->|]; [right; right; reflexivity|].
  destruct (Z.eq_dec r 83) as [->|]; [right; right; reflexivity|].
  destruct (Z.eq_dec r 115) as [->|]; [right; right; reflexivity|].
  destruct (Z.eq_dec r 383) as [->|]; [right; right; reflexivity|].
  destruct (Z_le_dec 65 r), (Z_le_dec r 90);
    try (destruct Hup as [E1 E2]; [lia..|]; right; left; rewrite E1; exact E2).
  all: destruct (Z_le_dec 97 r), (Z_le_dec r 122);
    try (destruct Hlo as [E1 E2]; [lia..|]; right; left; rewrite E1; exact E2).
  all: left; unfold SimpleFold, within, upperA, upperZ, lowerA, lowerZ;
    repeat match goal with
    | |- context [?p =? ?q] => destruct (Z.eqb_spec p q); try lia
    | |- context [?p <=? ?q] => destruct (Z.leb_spec p q); try lia
    end; cbn [andb]; lia.
Qed.

(** The bound on the walk is never reached: more turns change nothing. *)
Lemma foldUpTo_enough (n : nat) (sr tr : Z) :
  (3 <= n)%nat ->
  foldUpTo n sr tr (SimpleFold sr) = foldUpTo 3 sr tr (SimpleFold sr).
Proof.
  intros Hn. destruct n as [|[|[|n]]]; try lia.
  cbn [foldUpTo].
  destruct (Z.eqb_spec (SimpleFold sr) sr) as [E1|N1]; cbn [negb andb];
    [reflexivity|].
  destruct (SimpleFold sr <? tr); [|reflexivity].
  destruct (Z.eqb_spec (SimpleFold (SimpleFold sr)) sr) as [E2|N2];
    cbn [negb andb]; [reflexivity|].
  destruct (SimpleFold (SimpleFold sr) <? tr); [|reflexivity].
  destruct (SimpleFold_orbit sr) as [E|[E|E]]; try contradiction.
  rewrite E, Z.eqb_refl. reflexivity.
Qed.

Lemma length_drop (k : nat) (s : string) :
  (String.length (drop k s) <= String.length s)%nat.
Proof.
  revert s. induction k as [|k IH]; intros [|c s]; cbn; try lia.
  specialize (IH s). lia.
Qed.

Lemma DecodeRune_width (c : ascii) (s : string) :
  exists k, snd (DecodeRuneInString (String c s)) = S k.
Proof.
  unfold DecodeRuneInString.
  repeat match goal with
  | |- context [match ?x with EmptyString => _ | String _ _ => _ end] =>
    destruct x
  | |- context [if ?b then _ else _] => destruct b
  end; cbn [snd]; eauto.
Qed.

(** The rune loop never runs out of steps before [s] is used up. *)
Lemma equalFoldRunes_enough (n : nat) :
  forall (m : nat) (s t : string),
    (String.length s <= n)%nat -> (String.length s <= m)%nat ->
    equalFoldRunes n s t = equalFoldRunes m s t.
Proof.
  induction n as [|n IH]; intros m s t Hn Hm.
  - destruct s; [destruct m; reflexivity|cbn in Hn; lia].
  - destruct s as [|c s]; [destruct m; reflexivity|].
    destruct m as [|m]; [cbn in Hm; lia|].
    cbn [equalFoldRunes].
    destruct (DecodeRune_width c s) as [k Hk].
    destruct (DecodeRuneInString (String c s)) as [sr ssize].
    cbn [snd] in Hk. subst ssize. cbn [drop].
    pose proof (length_drop k s). cbn [String.length] in Hn, Hm.
    destruct t as [|c0 t1]; [reflexivity|].
    destruct (byte c0 <? RuneSelf);
      [|destruct (DecodeRuneInString (String c0 t1))];
      destruct (foldEq sr _); try reflexivity; apply IH; lia.
Qed.


Section Claims.
Variable env : Env.
Variable assignVariant : value -> dest -> Z * option error.

(** ** Close *)

(** ** Close *)

Lemma Close_once (v : Volume) (h : Trace) :
  Close env v h =
  (Done v,
   match handle v with
   | Some d => [Native (Release d) (env h (Release d))]
   | None => []
   end).
Proof.
  unfold Close. destruct (handle v) as [d|]; reflexivity.
Qed.

(** C1 (amended): [Close] never panics, has no error to return and
    leaves the Volume, its handle included, as it was.  On a nil handle
    it calls nothing; on any other handle every call releases it once,
    so that two calls in a row release the same handle twice. *)
Theorem Close_twice_releases_each_time (v : Volume) (h : Trace) :
  Close env v h =
    (Done v,
     match handle v with
     | Some d => [Native (Release d) (env h (Release d))]
     | None => []
     end) /\
  (v1 <- Close env v ;; Close env v1) h =
    (Done v,
     match handle v with
     | Some d =>
       let first := Native (Release d) (env h (Release d)) in
       [first; Native (Release d) (env (h ++ [first]) (Release d))]
     | None => []
     end).
Proof.
  split; [apply Close_once|].
  unfold bind. rewrite Close_once, Close_once.
  destruct (handle v); reflexivity.
Qed.

(** ** Format: the arguments of the native call *)

Lemma Format_events (v : Volume) (d : Z) (fs fsLabel : string) (alloc : Z)
    (full force compress shortn integrity lfrs dhg : bool) (h : Trace) :
  handle v = Some d ->
  events (Format env v fs fsLabel alloc full force compress shortn
            integrity lfrs dhg h) =
  let call := Format_call d fs fsLabel alloc full force compress shortn
                integrity lfrs dhg in
  [Native call (env h call)].
Proof.
  intros Hd.
  unfold Format, Format_call, oleutil_CallMethod, native, bind, events.
  rewrite Hd. cbv zeta.
  destruct (EqualFold "ReFS" fs); destruct (alloc =? 0); cbn [negb];
    unfold Format_params;
    match goal with
    | |- context [env h ?c] => destruct (env h c) as [res byref|err]
    end; cbn;
    try (destruct (assert_int32 (Value res)) as [val ok];
         destruct (negb (val =? 0) || negb ok)); reflexivity.
Qed.

(** C2: the native Format call gets nil for compress and short file
    names and the caller's booleans for integrity streams and large FRS
    when [fs] folds to "ReFS", and the other way round when it does not. *)
Theorem Format_option_groups (v : Volume) (d : Z) (fs fsLabel : string)
    (alloc : Z) (full force compress shortn integrity lfrs dhg : bool)
    (h : Trace) :
  handle v = Some d ->
  exists ialloc reply,
    events (Format env v fs fsLabel alloc full force compress shortn
              integrity lfrs dhg h) =
    [Native
       (CallMethod d "Format"
          (if EqualFold "ReFS" fs
           then Format_params fs fsLabel ialloc VNil VNil
                  (VBool integrity) (VBool lfrs) full force dhg
           else Format_params fs fsLabel ialloc (VBool compress)
                  (VBool shortn) VNil VNil full force dhg))
       reply].
Proof.
  intros Hd. rewrite (Format_events _ _ _ _ _ _ _ _ _ _ _ _ _ Hd).
  unfold Format_call. destruct (EqualFold "ReFS" fs); eauto.
Qed.

(** C10: the native Format call gets nil for the allocation unit size
    when the caller passes 0, and the caller's int32 otherwise. *)
Theorem Format_allocation_unit_size (v : Volume) (d : Z)
    (fs fsLabel : string) (alloc : Z)
    (full force compress shortn integrity lfrs dhg : bool) (h : Trace) :
  handle v = Some d ->
  exists icompress ishortn iintegrity ilfrs reply,
    events (Format env v fs fsLabel alloc full force compress shortn
              integrity lfrs dhg h) =
    [Native
       (CallMethod d "Format"
          (Format_params fs fsLabel
             (if alloc =? 0 then VNil else VInt Int32 alloc)
             icompress ishortn iintegrity ilfrs full force dhg))
       reply].
Proof.
  intros Hd. rewrite (Format_events _ _ _ _ _ _ _ _ _ _ _ _ _ Hd).
  unfold Format_call. do 5 eexists. reflexivity.
Qed.

(** ** Query on a nil handle *)

(** C5: on a nil handle, [Query] returns the error "invalid handle",
    reads no property (it calls nothing at all) and leaves every field of
    the Volume as it was. *)
Theorem Query_nil_handle (v : Volume) (h : Trace) :
  handle v = None ->
  Query env assignVariant v h = (Done (v, Some (Errorf "invalid handle")), []).
Proof.
  intros Hn. unfold Query. rewrite Hn. reflexivity.
Qed.

(** ** GetVolumes: the query text *)

(** C3: [GetVolumes] executes "SELECT * FROM MSFT_Volume" for the empty
    filter, and that text, one space and the filter for any other. *)
Theorem GetVolumes_query_text (svc : Service) (d : Z) (filter : string)
    (h : Trace) :
  wmiSvc svc = Some d ->
  exists query reply rest,
    events (GetVolumes env assignVariant svc filter h) =
      Native (CallMethod d "ExecQuery" [VString query]) reply :: rest /\
    (filter = "" -> query = "SELECT * FROM MSFT_Volume") /\
    (filter <> "" ->
     query = ("SELECT * FROM MSFT_Volume " ++ filter)%string).
Proof.
  intros Hd. unfold GetVolumes, oleutil_CallMethod, native, bind, events.
  rewrite Hd. cbv zeta.
  destruct (String.eqb_spec filter "") as [E|E]; cbn [negb];
    eexists;
    match goal with
    | |- context [env h ?c] => destruct (env h c) as [raw byref|err]
    end;
    try match goal with
        | |- context [defer ?a ?b ?c] => destruct (defer a b c) as [o t2]
        end;
    do 2 eexists; (split; [reflexivity|]); split;
    solve [reflexivity | tauto | intros; congruence].
Qed.

(** ** The mutating methods: native errors and status codes *)

Lemma prefix_refl (s : string) : prefix s s = true.
Proof.
  induction s as [|c s IH]; [reflexivity|].
  cbn. destruct (ascii_dec c c); [exact IH|congruence].
Qed.

Lemma Contains_suffix (pre sub : string) :
  Contains (pre ++ sub) sub = true.
Proof.
  induction pre as [|c pre IH].
  - cbn. destruct sub; cbn; [reflexivity|].
    rewrite prefix_refl.
    destruct (ascii_dec a a); [reflexivity|congruence].
  - cbn [append Contains]. rewrite IH. apply orb_true_r.
Qed.

(** What the shared tail of the four methods returns. *)
Lemma status_contract_holds (ctx during : string) (reply : Reply) :
  status_contract ctx during reply
    match reply with
    | Failed err => Some (Errorf_w ctx err)
    | Returned res _ =>
      let '(val, ok) := assert_int32 (Value res) in
      if negb (val =? 0) || negb ok
      then Some (Errorf (during ++ fmt_d val))
      else None
    end.
Proof.
  destruct reply as [res byref|err]; cbn.
  - intros code Hv. rewrite Hv. cbn. split.
    + intros Hc. apply Z.eqb_neq in Hc. rewrite Hc. cbn.
      eexists. split; [reflexivity|]. split; [reflexivity|].
      cbn. apply Contains_suffix.
    + intros ->. reflexivity.
  - split; [reflexivity|]. eexists. repeat split.
Qed.

(** C4: for [Flush], [Format], [Optimize] and [SetFileSystemLabel]
    alike, a native call that fails gives the native error with the
    method's context put before it; a native call that returns status
    [code] gives an error whose message holds [code] when it is not
    zero, and no error when it is. *)
Theorem mutating_calls_report_status (v : Volume) (d : Z) (h : Trace)
    (fs fsLabel label : string) (alloc : Z)
    (full force compress shortn integrity lfrs dhg : bool)
    (reTrim analyze defrag slab tier : bool) :
  handle v = Some d ->
  (exists err reply,
     Flush env v h = (Done (v, err), [Native (CallMethod d "Flush" []) reply])
     /\ status_contract "Flush: " "error code returned during flush: "
          reply err) /\
  (exists vol err params reply,
     Format env v fs fsLabel alloc full force compress shortn integrity
       lfrs dhg h =
       (Done (v, (vol, ExtendedStatus_zero, err)),
        [Native (CallMethod d "Format" params) reply])
     /\ status_contract "Format: "
          "error code returned during formatting: " reply err) /\
  (exists err params reply,
     Optimize env v reTrim analyze defrag slab tier h =
       (Done (v, (ExtendedStatus_zero, err)),
        [Native (CallMethod d "Optimize" params) reply])
     /\ status_contract "Optimize: "
          "error code returned during optimization: " reply err) /\
  (exists err params reply,
     SetFileSystemLabel env v label h =
       (Done (v, (ExtendedStatus_zero, err)),
        [Native (CallMethod d "SetFileSystemLabel" params) reply])
     /\ status_contract "SetFileSystemLabel: "
          "error code returned during setting file system label: "
          reply err).
Proof.
  intros Hd. repeat split.
  - unfold Flush, oleutil_CallMethod, native, bind. rewrite Hd.
    pose proof (status_contract_holds "Flush: "
                  "error code returned during flush: "
                  (env h (CallMethod d "Flush" []))) as C.
    destruct (env h (CallMethod d "Flush" [])) as [res byref|err].
    + cbv zeta in C. destruct (assert_int32 (Value res)) as [val ok].
      destruct (negb (val =? 0) || negb ok); do 2 eexists;
        (split; [reflexivity|exact C]).
    + do 2 eexists; (split; [reflexivity|exact C]).
  - unfold Format, oleutil_CallMethod, native, bind. rewrite Hd.
    destruct (EqualFold "ReFS" fs);
      match goal with
      | |- context [env h ?c] =>
        pose proof (status_contract_holds "Format: "
                      "error code returned during formatting: "
                      (env h c)) as C;
        destruct (env h c) as [res byref|err]
      end;
      try (cbv zeta in C; destruct (assert_int32 (Value res)) as [val ok];
           destruct (negb (val =? 0) || negb ok));
      do 4 eexists; (split; [reflexivity|exact C]).
  - unfold Optimize, oleutil_CallMethod, native, bind. rewrite Hd.
    match goal with
    | |- context [env h ?c] =>
      pose proof (status_contract_holds "Optimize: "
                    "error code returned during optimization: "
                    (env h c)) as C;
      destruct (env h c) as [res byref|err]
    end;
      try (cbv zeta in C; destruct (assert_int32 (Value res)) as [val ok];
           destruct (negb (val =? 0) || negb ok));
      do 3 eexists; (split; [reflexivity|exact C]).
  - unfold SetFileSystemLabel, oleutil_CallMethod, native, bind. rewrite Hd.
    match goal with
    | |- context [env h ?c] =>
      pose proof (status_contract_holds "SetFileSystemLabel: "
                    "error code returned during setting file system label: "
                    (env h c)) as C;
      destruct (env h c) as [res byref|err]
    end;
      try (cbv zeta in C; destruct (assert_int32 (Value res)) as [val ok];
           destruct (negb (val =? 0) || negb ok));
      do 3 eexists; (split; [reflexivity|exact C]).
Qed.

(** ** Format: the new Volume *)

(** C6 (amended): when the native call returns status 0, [Format]
    returns a new Volume, all fields zero but for the handle, which is
    the object the native call stored in its formatted-volume parameter
    (nil when it stored none); that handle is the caller's to close.  The
    Volume [Format] was called on keeps its own handle: [Format] makes
    the one native call and so releases nothing. *)
Theorem Format_returns_new_volume (v : Volume) (d : Z)
    (fs fsLabel : string) (alloc : Z)
    (full force compress shortn integrity lfrs dhg : bool) (h : Trace)
    (res : VARIANT) (byref : list VARIANT) :
  let call := Format_call d fs fsLabel alloc full force compress shortn
                integrity lfrs dhg in
  handle v = Some d ->
  env h call = Returned res byref ->
  Value res = VInt Int32 0 ->
  Format env v fs fsLabel alloc full force compress shortn integrity
    lfrs dhg h =
  (Done (v, (set_handle Volume_zero
               (ToIDispatch (nth 0 byref VariantInit)),
             ExtendedStatus_zero, None)),
   [Native call (Returned res byref)]).
Proof.
  intros call Hd Hr Hv. subst call.
  unfold Format, Format_call, oleutil_CallMethod, native, bind in *.
  unfold Format_params in Hr.
  rewrite Hd. destruct (EqualFold "ReFS" fs); destruct (alloc =? 0);
    cbn [negb]; rewrite Hr, Hv; reflexivity.
Qed.

(** ** GetVolumes: no match *)

(** C9: when the query succeeds and the count of its result reads as
    zero, [GetVolumes] returns an empty VolumeSet and no error. *)
Theorem GetVolumes_no_match (svc : Service) (d rd : Z) (filter : string)
    (h : Trace) (raw countVar : VARIANT) (byref byref' : list VARIANT) :
  let exec := Native (ExecQuery_call d filter) (Returned raw byref) in
  wmiSvc svc = Some d ->
  env h (ExecQuery_call d filter) = Returned raw byref ->
  ToIDispatch raw = Some rd ->
  env (h ++ [exec]) (GetProperty rd "Count") = Returned countVar byref' ->
  Val countVar = 0 ->
  outcome (GetVolumes env assignVariant svc filter h) =
    Done (mkVolumeSet [], None).
Proof.
  intros exec Hd Hq Hrd Hc Hz. subst exec.
  unfold GetVolumes, ExecQuery_call, oleutil_CallMethod, native, bind,
    outcome in *.
  rewrite Hd. cbv zeta.
  destruct (filter =? "")%string; cbn [negb]; cbn [append] in *;
    rewrite Hq, Hrd;
    unfold defer, oleutil_GetProperty, IDispatch_Release, native, bind;
    rewrite Hc, Hz; reflexivity.
Qed.

(** ** GetVolumes: a failure part of the way *)

(** The loop of [GetVolumes], one turn at a time. *)
Lemma enumerate_turn (result : IDispatch) (n : nat) (i : Z)
    (vset : VolumeSet) (h : Trace) :
  enumerate env assignVariant result (S n) i vset h =
  match fetch env assignVariant result i h with
  | (Done (inl v), t) =>
    let '(o, t') :=
      enumerate env assignVariant result n (i + 1)
        (mkVolumeSet (Volumes vset ++ [v])) (h ++ t) in
    (o, t ++ t')
  | (Done (inr e), t) => (Done (vset, Some e), t)
  | (Panic, t) => (Panic, t)
  end.
Proof.
  cbn [enumerate]. unfold fetch, bind.
  destruct (oleutil_CallMethod env result "ItemIndex" [VInt Int i] h)
    as [[[itemRaw byref|err]|] t1]; cbn; try reflexivity.
  destruct (Query env assignVariant _ (h ++ t1)) as [[[v [e|]]|] t2]; cbn.
  - rewrite app_nil_r. reflexivity.
  - rewrite !app_nil_r, <- !app_assoc.
    destruct (enumerate env assignVariant result n (i + 1) _ _) as [o t3].
    rewrite <- app_assoc. reflexivity.
  - reflexivity.
Qed.

Lemma enumerate_stops_at_failure (result : IDispatch) (vs : list Volume) :
  forall (n : nat) (i : Z) (vset : VolumeSet) (h t t' : Trace) (e : error),
    fetched env assignVariant result i h vs t ->
    fetch env assignVariant result (i + Z.of_nat (List.length vs)) (h ++ t)
      = (Done (inr e), t') ->
    (List.length vs < n)%nat ->
    enumerate env assignVariant result n i vset h =
      (Done (mkVolumeSet (Volumes vset ++ vs), Some e), t ++ t').
Proof.
  induction vs as [|v vs IH]; intros n i vset h t t' e Hf Hfail Hlen.
  - inversion Hf; subst. cbn in Hfail.
    rewrite Z.add_0_r, app_nil_r in Hfail.
    destruct n as [|n]; [inversion Hlen|].
    rewrite enumerate_turn, Hfail, app_nil_r.
    destruct vset; reflexivity.
  - inversion Hf as [|i0 h0 v0 t0 vs0 t0' Hv Hrest]; subst.
    destruct n as [|n]; [inversion Hlen|].
    rewrite enumerate_turn, Hv.
    rewrite (IH n (i + 1) (mkVolumeSet (Volumes vset ++ [v])) (h ++ t0)
               t0' t' e Hrest).
    + cbn [Volumes]. rewrite <- !app_assoc. reflexivity.
    + rewrite <- Hfail, <- app_assoc.
      replace (i + 1 + Z.of_nat (List.length vs))
        with (i + Z.of_nat (List.length (v :: vs)))
        by (cbn [List.length]; lia).
      reflexivity.
    + cbn [List.length] in Hlen. lia.
Qed.

(** C7: when the query ran and the first [length vs] items were fetched
    and queried, giving the Volumes [vs], and the next item fails with
    [e], be it in the fetch or in its [Query], [GetVolumes] returns [e]
    together with a VolumeSet that holds exactly [vs], in order. *)
Theorem GetVolumes_failure_keeps_appended (svc : Service) (d rd : Z)
    (filter : string) (h : Trace) (raw countVar : VARIANT)
    (byref byref' : list VARIANT) (vs : list Volume) (t t' : Trace)
    (e : error) :
  let exec := Native (ExecQuery_call d filter) (Returned raw byref) in
  let count := Native (GetProperty rd "Count") (Returned countVar byref') in
  wmiSvc svc = Some d ->
  env h (ExecQuery_call d filter) = Returned raw byref ->
  ToIDispatch raw = Some rd ->
  env (h ++ [exec]) (GetProperty rd "Count") = Returned countVar byref' ->
  fetched env assignVariant (Some rd) 0 (h ++ [exec; count]) vs t ->
  fetch env assignVariant (Some rd) (Z.of_nat (List.length vs))
    ((h ++ [exec; count]) ++ t) = (Done (inr e), t') ->
  (List.length vs < Z.to_nat (int64 (Val countVar)))%nat ->
  outcome (GetVolumes env assignVariant svc filter h) =
    Done (mkVolumeSet vs, Some e).
Proof.
  intros exec count Hd Hq Hrd Hc Hf Hfail Hlen. subst exec count.
  unfold GetVolumes, ExecQuery_call, oleutil_CallMethod, native, bind,
    outcome in *.
  rewrite Hd. cbv zeta.
  destruct (filter =? "")%string; cbn [negb]; cbn [append] in *;
    rewrite Hq, Hrd;
    unfold defer, oleutil_GetProperty, IDispatch_Release, native, bind;
    rewrite Hc;
    rewrite <- (app_assoc h [_] [_]); cbn [app];
    rewrite (enumerate_stops_at_failure (Some rd) vs _ 0 (mkVolumeSet [])
               _ t t' e Hf Hfail Hlen);
    reflexivity.
Qed.

(** ** Query: failed reads and failed decodes *)

Lemma handle_store (v : Volume) (f : numField) (x : Z) :
  handle (store v f x) = handle v.
Proof. destruct f; reflexivity. Qed.


Lemma getOrReturn_run (v : Volume) (d : Z) (name : string)
    (k : VARIANT -> M (Volume * option error)) (h : Trace) :
  handle v = Some d ->
  getOrReturn env v name k h =
  match env h (GetProperty d name) with
  | Failed err =>
    (Done (v, Some (Errorf_w ("oleutil.GetProperty(" ++ name ++ "): ") err)),
     [Native (GetProperty d name) (Failed err)])
  | Returned p byref =>
    let ev := Native (GetProperty d name) (Returned p byref) in
    let '(o, t) := k p (h ++ [ev]) in (o, ev :: t)
  end.
Proof.
  intros Hd. unfold getOrReturn, oleutil_GetProperty, native, bind.
  rewrite Hd. destruct (env h (GetProperty d name)); reflexivity.
Qed.

(** One turn of the loop over the non-string properties. *)
Lemma queryNonStrings_turn (name : string) (f : numField)
    (ps : list (string * numField)) (v : Volume) (d : Z) (h : Trace) :
  handle v = Some d ->
  queryNonStrings env assignVariant ((name, f) :: ps) v h =
  match env h (GetProperty d name) with
  | Failed err =>
    (Done (v, Some (Errorf_w ("oleutil.GetProperty(" ++ name ++ "): ") err)),
     [Native (GetProperty d name) (Failed err)])
  | Returned prop byref =>
    let read := Native (GetProperty d name) (Returned prop byref) in
    let '(x, e) := assignVariant (Value prop) (addr v f) in
    let log :=
      match e with
      | Some err =>
        [Warning ("assignVariant(" ++ name ++ "): " ++ Error err)]
      | None => []
      end in
    let '(o, t) :=
      queryNonStrings env assignVariant ps (store v f x)
        (h ++ read :: log) in
    (o, read :: log ++ t)
  end.
Proof.
  intros Hd. cbn [queryNonStrings]. rewrite (getOrReturn_run _ d); [|exact Hd].
  destruct (env h (GetProperty d name)) as [prop byref|err]; [|reflexivity].
  cbv zeta. destruct (assignVariant (Value prop) (addr v f)) as [x [err|]];
    unfold bind, logger_Warningf, emit, ret; cbn [app];
    rewrite <- app_assoc; cbn [app];
    destruct (queryNonStrings env assignVariant ps _ _); reflexivity.
Qed.







End Claims.

(** C1 (as stated) fails: on a volume that holds a handle, the second
    [Close] in a row releases the handle again. *)
Lemma Close_second_call_releases_again :
  ~ Close_second_is_noop (steady (Returned (ok_i4 0) [])) vol1 [].
Proof.
  intros H. specialize (H vol1 _ eq_refl). discriminate H.
Qed.

(** C6 (as stated) fails: after a successful [Format] the Volume it was
    called on still holds the object at address 1, not the formatted
    volume at address 2. *)
Lemma Format_keeps_receiver_handle :
  ~ Format_replaces_handle sample_env vol1 "NTFS" [].
Proof.
  intros H.
  specialize (H vol1 (set_handle Volume_zero (Some 2)) ExtendedStatus_zero
                eq_refl).
  discriminate H.
Qed.

(** ** The theorems at work on the sample native side *)

Lemma Format_option_groups_witness :
  handle vol1 = Some 1 /\
  exists ialloc reply,
    events (Format sample_env vol1 "refs" "data" 4096 true false true true
              false true false []) =
    [Native
       (CallMethod 1 "Format"
          (Format_params "refs" "data" ialloc VNil VNil (VBool false)
             (VBool true) true false false))
       reply].
Proof.
  split; [reflexivity|].
  exact (Format_option_groups sample_env vol1 1 "refs" "data" 4096 true false
           true true false true false [] eq_refl).
Defined.

Lemma Format_allocation_unit_size_witness :
  handle vol1 = Some 1 /\
  exists icompress ishortn iintegrity ilfrs reply,
    events (Format sample_env vol1 "NTFS" "data" 0 true false true true
              false true false []) =
    [Native
       (CallMethod 1 "Format"
          (Format_params "NTFS" "data" VNil icompress ishortn iintegrity
             ilfrs true false false))
       reply].
Proof.
  split; [reflexivity|].
  exact (Format_allocation_unit_size sample_env vol1 1 "NTFS" "data" 0 true
           false true true false true false [] eq_refl).
Defined.

Lemma Query_nil_handle_witness :
  handle Volume_zero = None /\
  Query sample_env assign_ok Volume_zero [] =
    (Done (Volume_zero, Some (Errorf "invalid handle")), []).
Proof.
  split; [reflexivity|].
  exact (Query_nil_handle sample_env assign_ok Volume_zero [] eq_refl).
Defined.

Lemma GetVolumes_query_text_witness :
  wmiSvc svc1 = Some 7 /\
  exists query reply rest,
    events (GetVolumes sample_env assign_ok svc1 "WHERE DriveLetter=D" []) =
      Native (CallMethod 7 "ExecQuery" [VString query]) reply :: rest /\
    ("WHERE DriveLetter=D" = "" -> query = "SELECT * FROM MSFT_Volume") /\
    ("WHERE DriveLetter=D" <> "" ->
     query = "SELECT * FROM MSFT_Volume WHERE DriveLetter=D").
Proof.
  split; [reflexivity|].
  exact (GetVolumes_query_text sample_env assign_ok svc1 7
           "WHERE DriveLetter=D" [] eq_refl).
Defined.

Lemma mutating_calls_report_status_witness :
  handle vol1 = Some 1 /\
  ((exists err reply,
      Flush sample_env vol1 [] =
        (Done (vol1, err), [Native (CallMethod 1 "Flush" []) reply])
      /\ status_contract "Flush: " "error code returned during flush: "
           reply err) /\
   (exists vol err params reply,
      Format sample_env vol1 "NTFS" "data" 0 true false false false false
        false false [] =
        (Done (vol1, (vol, ExtendedStatus_zero, err)),
         [Native (CallMethod 1 "Format" params) reply])
      /\ status_contract "Format: "
           "error code returned during formatting: " reply err) /\
   (exists err params reply,
      Optimize sample_env vol1 true false true false false [] =
        (Done (vol1, (ExtendedStatus_zero, err)),
         [Native (CallMethod 1 "Optimize" params) reply])
      /\ status_contract "Optimize: "
           "error code returned during optimization: " reply err) /\
   (exists err params reply,
      SetFileSystemLabel sample_env vol1 "data" [] =
        (Done (vol1, (ExtendedStatus_zero, err)),
         [Native (CallMethod 1 "SetFileSystemLabel" params) reply])
      /\ status_contract "SetFileSystemLabel: "
           "error code returned during setting file system label: "
           reply err)).
Proof.
  split; [reflexivity|].
  exact (mutating_calls_report_status sample_env vol1 1 [] "NTFS" "data"
           "data" 0 true false false false false false false true false true
           false false eq_refl).
Defined.

Lemma Format_returns_new_volume_witness :
  Format sample_env vol1 "NTFS" "data" 0 true false false false false false
    false [] =
  (Done (vol1, (set_handle Volume_zero (Some 2), ExtendedStatus_zero, None)),
   [Native
      (Format_call 1 "NTFS" "data" 0 true false false false false false false)
      (Returned (ok_i4 0) [ok_dispatch 2; VariantInit])]).
Proof.
  exact (Format_returns_new_volume sample_env vol1 1 "NTFS" "data" 0 true
           false false false false false false [] (ok_i4 0)
           [ok_dispatch 2; VariantInit] eq_refl eq_refl eq_refl).
Defined.

Lemma GetVolumes_no_match_witness :
  outcome (GetVolumes empty_env assign_ok svc1 "" []) =
    Done (mkVolumeSet [], None).
Proof.
  exact (GetVolumes_no_match empty_env assign_ok svc1 7 10 "" []
           (ok_dispatch 10) (ok_i4 0) [] [] eq_refl eq_refl eq_refl eq_refl
           eq_refl).
Defined.

Lemma GetVolumes_failure_keeps_appended_witness :
  outcome (GetVolumes sample_env assign_ok svc1 "" []) =
    Done (mkVolumeSet [volC],
          Some (Errorf_w "oleutil.CallMethod(ItemIndex, 1): "
                  (Errorf "item not available"))).
Proof.
  eapply (GetVolumes_failure_keeps_appended sample_env assign_ok svc1 7 10 ""
            [] (ok_dispatch 10) (ok_i4 2) [] [] [volC] _ _ _
            eq_refl eq_refl eq_refl eq_refl).
  - eapply fetched_more; [reflexivity|apply fetched_none].
  - reflexivity.
  - vm_compute. constructor.
Defined.

(** The sample run in full: one Volume kept, the error of the second
    fetch returned, the result object released on the way out. *)
Example GetVolumes_sample_run :
  GetVolumes sample_env assign_ok svc1 "" [] =
  (Done (mkVolumeSet [volC],
         Some (Errorf_w "oleutil.CallMethod(ItemIndex, 1): "
                 (Errorf "item not available"))),
   let get name r := Native (GetProperty 20 name) (Returned r []) in
   let text := mkVARIANT VT_BSTR 0 "NTFS" in
   [Native (CallMethod 7 "ExecQuery" [VString "SELECT * FROM MSFT_Volume"])
      (Returned (ok_dispatch 10) []);
    Native (GetProperty 10 "Count") (Returned (ok_i4 2) []);
    Native (CallMethod 10 "ItemIndex" [VInt Int 0])
      (Returned (ok_dispatch 20) []);
    get "DriveLetter" (mkVARIANT VT_UI2 67 "");
    get "Path" text; get "FileSystem" text; get "FileSystemLabel" text;
    get "HealthStatus" text; get "FileSystemType" text; get "Size" text;
    get "SizeRemaining" text; get "DriveType" text; get "DedupMode" text;
    Native (CallMethod 10 "ItemIndex" [VInt Int 1])
      (Failed (Errorf "item not available"));
    Native (Release 10) (Returned (ok_i4 0) [])]).
Proof. reflexivity. Qed.

(** A read that fails: [Query] stops there and returns the error, with
    what it had stored so far. *)
Example Query_read_fails :
  Query size_unreadable_env assign_ok vol1 [] =
  (Done (set_handle volC (Some 1),
         Some (Errorf_w "oleutil.GetProperty(Size): " (Errorf "access denied"))),
   let get name r := Native (GetProperty 1 name) r in
   let text := Returned (mkVARIANT VT_BSTR 0 "NTFS") [] in
   [get "DriveLetter" (Returned (mkVARIANT VT_UI2 67 "") []);
    get "Path" text; get "FileSystem" text; get "FileSystemLabel" text;
    get "HealthStatus" text; get "FileSystemType" text;
    get "Size" (Failed (Errorf "access denied"))]).
Proof. reflexivity. Qed.

(** A decode that fails for every non-string property: [Query] returns
    no error and logs six warnings. *)
Example Query_all_decodes_fail :
  let r := Query sample_env assign_fail vol1 [] in
  outcome r = Done (set_handle volC (Some 1), None) /\
  filter (fun e => match e with Warning _ => true | _ => false end) (events r)
  = map (fun name => Warning ("assignVariant(" ++ name ++ "): unsupported"))
      (map fst nonStrings).
Proof. split; reflexivity. Qed.

(** * Further properties of the package *)

Section Coverage.
Variable env : Env.
Variable assignVariant : value -> dest -> Z * option error.

(** ** Traces *)

Lemma calls_app (t1 t2 : Trace) : calls (t1 ++ t2) = calls t1 ++ calls t2.
Proof. apply flat_map_app. Qed.

Lemma releases_app (t1 t2 : Trace) :
  releases (t1 ++ t2) = releases t1 ++ releases t2.
Proof. apply flat_map_app. Qed.

Lemma calls_native (c : Call) (r : Reply) (t : Trace) :
  calls (Native c r :: t) = c :: calls t.
Proof. reflexivity. Qed.

Lemma releases_of_reads (d : Z) (names : list string) (t : Trace) :
  calls t = map (GetProperty d) names -> releases t = [].
Proof.
  revert names. induction t as [|e t IH]; intros names H; [reflexivity|].
  destruct e as [c r|msg]; cbn in H |- *.
  - destruct names as [|n names]; [discriminate H|].
    injection H as -> H. cbn. exact (IH names H).
  - exact (IH names H).
Qed.

(** ** VolumeSet.Close *)

Lemma closeAll_releases (vs : list Volume) :
  forall h, exists t,
    closeAll env vs h = (Done tt, t) /\
    calls t = map Release (held vs) /\
    releases t = held vs.
Proof.
  induction vs as [|v vs IH]; intros h.
  - exists []. repeat split.
  - cbn [closeAll]. unfold bind. rewrite (Close_once env).
    destruct (IH (h ++ match handle v with
                       | Some d => [Native (Release d) (env h (Release d))]
                       | None => []
                       end)) as (t & Ht & Hc & Hr).
    rewrite Ht. eexists. split; [reflexivity|].
    rewrite calls_app, releases_app, Hc, Hr. unfold held. cbn [flat_map].
    destruct (handle v); split; reflexivity.
Qed.

(** X1: [VolumeSet.Close] releases the handle of every Volume of the set
    that holds one, once each and in the order of the set, calls nothing
    else, and leaves the set as it was. *)
Theorem VolumeSet_Close_releases_members (s : VolumeSet) (h : Trace) :
  exists t,
    VolumeSet_Close env s h = (Done s, t) /\
    calls t = map Release (held (Volumes s)).
Proof.
  unfold VolumeSet_Close, bind.
  destruct (closeAll_releases (Volumes s) h) as (t & Ht & Hc & _).
  rewrite Ht. exists (t ++ []). split; [reflexivity|].
  rewrite app_nil_r. exact Hc.
Qed.

(** ** Query: the order of the reads, and what outlasts a failure *)

Lemma Query_shape_read (P : Volume -> Prop) (v : Volume) (d : Z)
    (name : string) (names : list string)
    (k : VARIANT -> M (Volume * option error)) (h : Trace) :
  handle v = Some d ->
  P v ->
  (forall p h', Query_shape d P names (k p h')) ->
  Query_shape d P (name :: names) (getOrReturn env v name k h).
Proof.
  intros Hd HP Hk. rewrite (getOrReturn_run env v d); [|exact Hd].
  destruct (env h (GetProperty d name)) as [p byref|err].
  - cbv zeta.
    specialize (Hk p (h ++ [Native (GetProperty d name) (Returned p byref)])).
    destruct (k p _) as [o t].
    destruct Hk as (v' & e & n & Ho & Hh & HP' & Hn & Hc & Hall).
    unfold Query_shape, outcome, events in *; cbn [fst snd] in *.
    exists v', e, (S n). repeat split; try assumption.
    + cbn [List.length]. lia.
    + rewrite calls_native, Hc. reflexivity.
    + intros E. cbn [List.length]. rewrite (Hall E). reflexivity.
  - exists v, (Some (Errorf_w ("oleutil.GetProperty(" ++ name ++ "): ") err)),
      1%nat.
    repeat split; try assumption.
    + cbn [List.length]. lia.
    + discriminate.
Qed.

Lemma Query_shape_loop (P : Volume -> Prop)
    (ps : list (string * numField)) :
  (forall v f x, P v -> P (store v f x)) ->
  forall (v : Volume) (d : Z) (h : Trace),
    handle v = Some d ->
    P v ->
    Query_shape d P (map fst ps) (queryNonStrings env assignVariant ps v h).
Proof.
  intros Hstore. induction ps as [|[name f] ps IH]; intros v d h Hd HP.
  - exists v, None, 0%nat. repeat split; auto.
  - rewrite (queryNonStrings_turn env assignVariant _ _ _ _ d); [|exact Hd].
    destruct (env h (GetProperty d name)) as [prop byref|err].
    + cbv zeta. destruct (assignVariant (Value prop) (addr v f)) as [x e0].
      match goal with
      | |- context [queryNonStrings env assignVariant ps ?v' ?h'] =>
        destruct (IH v' d h') as (v1 & e & n & Ho & Hh & HP' & Hn & Hc & Hall);
          [rewrite handle_store; exact Hd|apply Hstore; exact HP|];
        destruct (queryNonStrings env assignVariant ps v' h') as [o t]
      end.
      unfold Query_shape, outcome, events in *; cbn [fst snd] in *.
      exists v1, e, (S n). repeat split; try assumption.
      * cbn [List.length map]. lia.
      * change (?a :: ?l ++ t) with ([a] ++ l ++ t).
        rewrite !calls_app, Hc. destruct e0; reflexivity.
      * intros E. cbn [List.length map]. rewrite (Hall E). reflexivity.
    + exists v, (Some (Errorf_w ("oleutil.GetProperty(" ++ name ++ "): ") err)),
        1%nat.
      repeat split; try assumption.
      * cbn [List.length map]. lia.
      * discriminate.
Qed.

(** [Query] from its second read on, for the Volume as the first read
    left it. *)
Lemma Query_shape_rest (P : Volume -> Prop) (v : Volume) (d : Z)
    (h : Trace) :
  (forall v f x, P v -> P (store v f x)) ->
  (forall v x, P v -> P (set_Path v x)) ->
  (forall v x, P v -> P (set_FileSystem v x)) ->
  (forall v x, P v -> P (set_FileSystemLabel v x)) ->
  handle v = Some d ->
  P v ->
  Query_shape d P (tl Query_names)
    (getOrReturn env v "Path" (fun p =>
     let v := set_Path v (ToString p) in
     getOrReturn env v "FileSystem" (fun p =>
     let v := set_FileSystem v (ToString p) in
     getOrReturn env v "FileSystemLabel" (fun p =>
     let v := set_FileSystemLabel v (ToString p) in
     queryNonStrings env assignVariant nonStrings v))) h).
Proof.
  intros H1 H2 H3 H4 Hd HP.
  apply Query_shape_read; [exact Hd|exact HP|intros p2 h2].
  apply Query_shape_read; [exact Hd|apply H2; exact HP|intros p3 h3].
  apply Query_shape_read; [exact Hd|apply H3, H2; exact HP|intros p4 h4].
  apply (Query_shape_loop P nonStrings H1); [exact Hd|].
  apply H4, H3, H2; exact HP.
Qed.

(** [Query] as a whole, on a Volume that holds an object. *)
Lemma Query_shape_all (v : Volume) (d : Z) (h : Trace) :
  handle v = Some d ->
  Query_shape d (fun _ => True) Query_names (Query env assignVariant v h).
Proof.
  intros Hd. unfold Query. rewrite Hd.
  apply Query_shape_read; [exact Hd|exact I|intros p1 h1].
  apply (Query_shape_rest (fun _ => True)); auto.
Qed.


(** ** Query: the log, and the error *)








(** X3: [Query] always returns, with or without an error, and never
    changes the handle of the Volume. *)
Theorem Query_keeps_handle (v : Volume) (h : Trace) :
  exists v' err,
    outcome (Query env assignVariant v h) = Done (v', err) /\
    handle v' = handle v.
Proof.
  destruct (handle v) as [d|] eqn:Hd.
  - destruct (Query_shape_all v d h Hd) as (v' & err & k & Ho & Hh & _).
    exists v', err. split; assumption.
  - unfold Query. rewrite Hd. eexists; eexists. split; [reflexivity|exact Hd].
Qed.

Lemma EncodeRune_length (r : Z) :
  (1 <= String.length (EncodeRune r) <= 4)%nat.
Proof.
  unfold EncodeRune. cbv zeta.
  repeat match goal with
  | |- context [if ?b then _ else _] => destruct b
  end; cbn [String.length]; lia.
Qed.

(** X4: once the DriveLetter read has succeeded, the Volume keeps what
    it gave whatever happens to the later reads: the UTF-8 encoding of the
    low 32 bits of the payload taken as a rune.  That text is never empty:
    a payload of 0 gives a string of one NUL byte. *)
Theorem Query_drive_letter (v : Volume) (d : Z) (h : Trace) (p : VARIANT)
    (byref : list VARIANT) :
  handle v = Some d ->
  env h (GetProperty d "DriveLetter") = Returned p byref ->
  exists v' err,
    outcome (Query env assignVariant v h) = Done (v', err) /\
    DriveLetter v' = EncodeRune (int32 (Val p)) /\
    (1 <= String.length (DriveLetter v') <= 4)%nat.
Proof.
  intros Hd Hp. unfold Query. rewrite Hd.
  rewrite (getOrReturn_run env v d); [|exact Hd]. rewrite Hp. cbv zeta.
  match goal with
  | |- context [getOrReturn env ?v1 "Path" ?k ?h1] =>
    destruct (Query_shape_rest
                (fun w => DriveLetter w = EncodeRune (int32 (Val p))) v1 d h1)
      as (v' & err & k' & Ho & _ & HP & _);
      [intros w f x; destruct f; exact (fun E => E)
      |intros w x E; exact E|intros w x E; exact E|intros w x E; exact E
      |exact Hd|reflexivity|];
    destruct (getOrReturn env v1 "Path" k h1) as [o t]
  end.
  unfold outcome in *; cbn [fst] in *.
  exists v', err. split; [exact Ho|]. split; [exact HP|].
  rewrite HP. apply EncodeRune_length.
Qed.


(** ** GetVolumes: what every run has in common *)

Lemma issued_app_l (rd : Z) (t1 t2 : Trace) (i : Z) (v : Volume) :
  issued rd t1 i v -> issued rd (t1 ++ t2) i v.
Proof.
  intros (itemRaw & byref & Hin & Hh & Hn).
  exists itemRaw, byref. split; [apply in_or_app; left; exact Hin|].
  split; assumption.
Qed.

Lemma issued_app_r (rd : Z) (t1 t2 : Trace) (i : Z) (v : Volume) :
  issued rd t2 i v -> issued rd (t1 ++ t2) i v.
Proof.
  intros (itemRaw & byref & Hin & Hh & Hn).
  exists itemRaw, byref. split; [apply in_or_app; right; exact Hin|].
  split; assumption.
Qed.

(** One turn of the loop returns, releases nothing, and a Volume it
    yields holds the object its ItemIndex call returned. *)
Lemma fetch_shape (rd i : Z) (h : Trace) :
  exists o t,
    fetch env assignVariant (Some rd) i h = (Done o, t) /\
    releases t = [] /\
    match o with
    | inl v => issued rd t i v
    | inr _ => True
    end.
Proof.
  unfold fetch, oleutil_CallMethod, native, bind.
  destruct (env h (CallMethod rd "ItemIndex" [VInt Int i]))
    as [itemRaw byref|err] eqn:Hr.
  - destruct (ToIDispatch itemRaw) as [d2|] eqn:Hi.
    + match goal with
      | |- context [Query env assignVariant ?v0 ?h0] =>
        destruct (Query_shape_all v0 d2 h0 eq_refl)
          as (v' & err & k & Ho & Hh & _ & _ & Hc & _);
        destruct (Query env assignVariant v0 h0) as [o t]
      end.
      unfold outcome, events in *; cbn [fst snd] in *. subst o.
      destruct err as [e|]; cbn; eexists; eexists;
        (split; [reflexivity|]); rewrite app_nil_r;
        (split; [exact (releases_of_reads d2 _ t Hc)|]); [exact I|].
      exists itemRaw, byref. split; [left; reflexivity|].
      rewrite Hh, Hi. split; [reflexivity|discriminate].
    + unfold Query. cbn. eexists; eexists. split; [reflexivity|].
      split; [reflexivity|exact I].
  - cbn. eexists; eexists. split; [reflexivity|]. split; [reflexivity|exact I].
Qed.

(** The loop returns, releases nothing, appends at most one Volume a
    turn, all of them when it ends without error, and the Volume it
    appends in turn [j] holds the object that ItemIndex returned for the
    index of that turn. *)
Lemma enumerate_shape (rd : Z) (n : nat) :
  forall (i : Z) (vset : VolumeSet) (h : Trace),
    exists vset' err t new,
      enumerate env assignVariant (Some rd) n i vset h
        = (Done (vset', err), t) /\
      releases t = [] /\
      Volumes vset' = Volumes vset ++ new /\
      (List.length new <= n)%nat /\
      (err = None -> List.length new = n) /\
      (forall j v, nth_error new j = Some v ->
                   issued rd t (i + Z.of_nat j) v).
Proof.
  induction n as [|n IH]; intros i vset h.
  - exists vset, None, [], []. cbn. rewrite app_nil_r.
    repeat split; auto. intros [|j] v E; discriminate E.
  - rewrite enumerate_turn.
    destruct (fetch_shape rd i h) as (o & t & Hf & Hrel & Hv). rewrite Hf.
    destruct o as [v|e].
    + destruct (IH (i + 1) (mkVolumeSet (Volumes vset ++ [v])) (h ++ t))
        as (vset' & err & t' & new & He & Hrel' & Hvs & Hlen & Hall & Hiss).
      rewrite He. exists vset', err, (t ++ t'), (v :: new).
      split; [reflexivity|].
      split; [rewrite releases_app, Hrel, Hrel'; reflexivity|].
      split; [rewrite Hvs; cbn [Volumes]; rewrite <- app_assoc; reflexivity|].
      split; [cbn [List.length]; lia|].
      split; [intros E; cbn [List.length]; rewrite (Hall E); reflexivity|].
      intros [|j] w E; cbn [nth_error] in E.
      * injection E as <-. rewrite Z.add_0_r. apply issued_app_l. exact Hv.
      * apply issued_app_r.
        replace (i + Z.of_nat (S j)) with (i + 1 + Z.of_nat j) by lia.
        exact (Hiss j w E).
    + exists vset, (Some e), t, []. rewrite app_nil_r.
      repeat split; auto; [cbn; lia|discriminate|].
      intros [|j] v E; discriminate E.
Qed.

(** [GetVolumes] once the query has given an object: the run in full. *)
Lemma GetVolumes_shape (svc : Service) (d rd : Z) (filter : string)
    (h : Trace) (raw : VARIANT) (byref : list VARIANT) :
  let exec := Native (ExecQuery_call d filter) (Returned raw byref) in
  wmiSvc svc = Some d ->
  env h (ExecQuery_call d filter) = Returned raw byref ->
  ToIDispatch raw = Some rd ->
  exists vset err t reply,
    GetVolumes env assignVariant svc filter h =
      (Done (vset, err), exec :: t ++ [Native (Release rd) reply]) /\
    releases t = [] /\
    (forall j v, nth_error (Volumes vset) j = Some v ->
                 issued rd t (Z.of_nat j) v) /\
    match env (h ++ [exec]) (GetProperty rd "Count") with
    | Failed e =>
      vset = mkVolumeSet [] /\
      err = Some (Errorf_w "oleutil.GetProperty(Count): " e) /\
      t = [Native (GetProperty rd "Count") (Failed e)]
    | Returned countVar _ =>
      let n := Z.to_nat (int64 (Val countVar)) in
      (List.length (Volumes vset) <= n)%nat /\
      (err = None -> List.length (Volumes vset) = n)
    end.
Proof.
  intros exec Hd Hq Hrd. subst exec.
  unfold GetVolumes, ExecQuery_call, oleutil_CallMethod, native, bind in *.
  rewrite Hd. cbv zeta.
  destruct (filter =? "")%string; cbn [negb]; cbn [append] in *;
    rewrite Hq, Hrd;
    unfold defer, oleutil_GetProperty, IDispatch_Release, native, bind, ret.
  all: match goal with
       | |- context [env ?h1 (GetProperty ?x "Count")] =>
         destruct (env h1 (GetProperty x "Count")) as [countVar byref'|e]
       end.
  all: try match goal with
       | |- context [enumerate ?a ?b (Some ?x) ?n ?i ?vs ?h2] =>
         destruct (enumerate_shape x n i vs h2)
           as (vset' & err & t & new & He & Hrel & Hvs & Hlen & Hall & Hiss);
         rewrite He
       end.
  all: eexists; eexists; eexists; eexists;
    (split; [rewrite !app_nil_r; reflexivity|]).
  all: cbn [Volumes app] in *; try subst new.
  all: try rewrite Hvs.
  all: split; [try exact Hrel; reflexivity|].
  all: split;
    [intros j w E;
     try (apply (issued_app_r rd [_] t); exact (Hiss j w E));
     destruct j; discriminate E|].
  all: try (split; [exact Hlen|exact Hall]).
  all: repeat split.
Qed.


(** X5: once the query has given a result object, [GetVolumes] returns
    (it does not panic), releases that object as the last thing it does,
    on the paths that end in an error as on the one that does not, and
    releases nothing else: neither the handles of the Volumes it returns
    nor the handle of an item whose [Query] failed. *)
Theorem GetVolumes_releases_result_only (svc : Service) (d rd : Z)
    (filter : string) (h : Trace) (raw : VARIANT) (byref : list VARIANT) :
  wmiSvc svc = Some d ->
  env h (ExecQuery_call d filter) = Returned raw byref ->
  ToIDispatch raw = Some rd ->
  exists vset err t reply,
    GetVolumes env assignVariant svc filter h =
      (Done (vset, err),
       Native (ExecQuery_call d filter) (Returned raw byref)
         :: t ++ [Native (Release rd) reply]) /\
    releases t = [].
Proof.
  intros Hd Hq Hrd.
  destruct (GetVolumes_shape svc d rd filter h raw byref Hd Hq Hrd)
    as (vset & err & t & reply & Hg & Hrel & _).
  exists vset, err, t, reply. split; assumption.
Qed.

(** X6: the Volumes [GetVolumes] returns are the items of the result in
    index order: the Volume at position [j] of the set holds the handle
    that the call ItemIndex(j) of this run returned, and that handle is
    not nil. *)
Theorem GetVolumes_members_in_index_order (svc : Service) (d rd : Z)
    (filter : string) (h : Trace) (raw : VARIANT) (byref : list VARIANT) :
  wmiSvc svc = Some d ->
  env h (ExecQuery_call d filter) = Returned raw byref ->
  ToIDispatch raw = Some rd ->
  exists vset err,
    outcome (GetVolumes env assignVariant svc filter h) = Done (vset, err) /\
    forall j v,
      nth_error (Volumes vset) j = Some v ->
      issued rd (events (GetVolumes env assignVariant svc filter h))
        (Z.of_nat j) v.
Proof.
  intros Hd Hq Hrd.
  destruct (GetVolumes_shape svc d rd filter h raw byref Hd Hq Hrd)
    as (vset & err & t & reply & Hg & _ & Hiss & _).
  exists vset, err. rewrite Hg. split; [reflexivity|].
  intros j v E. unfold events; cbn [snd].
  apply (issued_app_r rd [_]), issued_app_l. exact (Hiss j v E).
Qed.

(** X7: when the count of the result has been read, [GetVolumes]
    returns at most that many Volumes (none for a count below zero), and
    exactly that many when it returns no error. *)
Theorem GetVolumes_count_bound (svc : Service) (d rd : Z)
    (filter : string) (h : Trace) (raw countVar : VARIANT)
    (byref byref' : list VARIANT) :
  let exec := Native (ExecQuery_call d filter) (Returned raw byref) in
  wmiSvc svc = Some d ->
  env h (ExecQuery_call d filter) = Returned raw byref ->
  ToIDispatch raw = Some rd ->
  env (h ++ [exec]) (GetProperty rd "Count") = Returned countVar byref' ->
  exists vset err,
    outcome (GetVolumes env assignVariant svc filter h) = Done (vset, err) /\
    (List.length (Volumes vset) <= Z.to_nat (int64 (Val countVar)))%nat /\
    (err = None ->
     List.length (Volumes vset) = Z.to_nat (int64 (Val countVar))).
Proof.
  intros exec Hd Hq Hrd Hc. subst exec.
  destruct (GetVolumes_shape svc d rd filter h raw byref Hd Hq Hrd)
    as (vset & err & t & reply & Hg & _ & _ & Hcount).
  cbv zeta in Hcount. rewrite Hc in Hcount.
  exists vset, err. rewrite Hg. split; [reflexivity|exact Hcount].
Qed.


Lemma enumerate_all_fetched (result : IDispatch) (vs : list Volume) :
  forall (n : nat) (i : Z) (vset : VolumeSet) (h t : Trace),
    fetched env assignVariant result i h vs t ->
    List.length vs = n ->
    enumerate env assignVariant result n i vset h =
      (Done (mkVolumeSet (Volumes vset ++ vs), None), t).
Proof.
  induction vs as [|v vs IH]; intros n i vset h t Hf Hlen.
  - inversion Hf; subst. cbn. rewrite app_nil_r. destruct vset; reflexivity.
  - inversion Hf as [|i0 h0 v0 t0 vs0 t0' Hv Hrest]; subst.
    cbn [List.length]. rewrite enumerate_turn, Hv.
    rewrite (IH (List.length vs) (i + 1) (mkVolumeSet (Volumes vset ++ [v]))
               (h ++ t0) t0' Hrest eq_refl).
    cbn [Volumes]. rewrite <- app_assoc. reflexivity.
Qed.

(** X8: when the query ran, the count was read, and every item up to the
    count was fetched and queried, giving the Volumes [vs], [GetVolumes]
    returns exactly [vs], in order, and no error. *)
Theorem GetVolumes_all_fetched (svc : Service) (d rd : Z)
    (filter : string) (h : Trace) (raw countVar : VARIANT)
    (byref byref' : list VARIANT) (vs : list Volume) (t : Trace) :
  let exec := Native (ExecQuery_call d filter) (Returned raw byref) in
  let count := Native (GetProperty rd "Count") (Returned countVar byref') in
  wmiSvc svc = Some d ->
  env h (ExecQuery_call d filter) = Returned raw byref ->
  ToIDispatch raw = Some rd ->
  env (h ++ [exec]) (GetProperty rd "Count") = Returned countVar byref' ->
  fetched env assignVariant (Some rd) 0 (h ++ [exec; count]) vs t ->
  List.length vs = Z.to_nat (int64 (Val countVar)) ->
  outcome (GetVolumes env assignVariant svc filter h) =
    Done (mkVolumeSet vs, None).
Proof.
  intros exec count Hd Hq Hrd Hc Hf Hlen. subst exec count.
  unfold GetVolumes, ExecQuery_call, oleutil_CallMethod, native, bind,
    outcome in *.
  rewrite Hd. cbv zeta.
  destruct (filter =? "")%string; cbn [negb]; cbn [append] in *;
    rewrite Hq, Hrd;
    unfold defer, oleutil_GetProperty, IDispatch_Release, native, bind;
    rewrite Hc;
    rewrite <- (app_assoc h [_] [_]); cbn [app];
    rewrite (enumerate_all_fetched (Some rd) vs _ 0 (mkVolumeSet []) _ t Hf
               Hlen);
    reflexivity.
Qed.

(** A run of [GetVolumes] that returns either found no object to
    enumerate, and then returns no Volume, or got a result object from a
    query on the service handle. *)
Lemma GetVolumes_returned_cases (svc : Service) (filter : string)
    (h t : Trace) (vset : VolumeSet) (err : option error) :
  GetVolumes env assignVariant svc filter h = (Done (vset, err), t) ->
  Volumes vset = [] \/
  exists d rd raw byref,
    wmiSvc svc = Some d /\
    env h (ExecQuery_call d filter) = Returned raw byref /\
    ToIDispatch raw = Some rd.
Proof.
  intros Hg. destruct (wmiSvc svc) as [d|] eqn:Hd.
  - destruct (env h (ExecQuery_call d filter)) as [raw byref|e] eqn:Hq.
    + destruct (ToIDispatch raw) as [rd|] eqn:Hrd.
      * right. exists d, rd, raw, byref. auto.
      * exfalso. revert Hg.
        unfold GetVolumes, ExecQuery_call, oleutil_CallMethod, native, bind
          in *.
        rewrite Hd. cbv zeta.
        destruct (filter =? "")%string; cbn [negb]; cbn [append] in *;
          rewrite Hq, Hrd; cbn; discriminate.
    + left. revert Hg.
      unfold GetVolumes, ExecQuery_call, oleutil_CallMethod, native, bind in *.
      rewrite Hd. cbv zeta.
      destruct (filter =? "")%string; cbn [negb]; cbn [append] in *;
        rewrite Hq; cbn; intros [= <- _ _]; reflexivity.
  - exfalso. revert Hg. unfold GetVolumes, oleutil_CallMethod, bind.
    rewrite Hd. cbn. discriminate.
Qed.

Lemma held_all (vs : list Volume) :
  (forall v, In v vs -> handle v <> None) ->
  map Some (held vs) = map handle vs.
Proof.
  induction vs as [|v vs IH]; intros H; [reflexivity|].
  unfold held in *. cbn [flat_map map].
  destruct (handle v) as [d|] eqn:E.
  - cbn. rewrite IH; [reflexivity|]. intros w Hw. apply H. now right.
  - exfalso. apply (H v); [now left|exact E].
Qed.

(** X9: closing the set that [GetVolumes] returned, be it with an error
    or without, releases the handle of every Volume of the set, once each
    and in order: none of them is nil and none is skipped. *)
Theorem GetVolumes_then_Close (svc : Service) (filter : string)
    (h t h' : Trace) (vset : VolumeSet) (err : option error) :
  GetVolumes env assignVariant svc filter h = (Done (vset, err), t) ->
  exists t',
    VolumeSet_Close env vset h' = (Done vset, t') /\
    map Some (releases t') = map handle (Volumes vset) /\
    calls t' = map Release (releases t').
Proof.
  intros Hg. unfold VolumeSet_Close, bind.
  destruct (closeAll_releases (Volumes vset) h') as (t' & Ht & Hc & Hr).
  rewrite Ht. exists (t' ++ []). split; [reflexivity|].
  rewrite app_nil_r, Hr, Hc. split; [|reflexivity].
  apply held_all. intros v Hv.
  destruct (GetVolumes_returned_cases svc filter h t vset err Hg)
    as [E|(d & rd & raw & byref & Hd & Hq & Hrd)].
  - rewrite E in Hv. destruct Hv.
  - destruct (GetVolumes_shape svc d rd filter h raw byref Hd Hq Hrd)
      as (vset1 & err1 & t1 & reply & Hg1 & _ & Hiss & _).
    rewrite Hg in Hg1. injection Hg1 as <- _ _.
    destruct (In_nth_error _ _ Hv) as [j Hj].
    destruct (Hiss j v Hj) as (_ & _ & _ & _ & Hn). exact Hn.
Qed.


(** X10: the two failures before the loop.  When the query itself fails,
    [GetVolumes] returns an empty set and the native error behind
    "ExecQuery(" the query text "): ", and calls nothing else: there is no
    object to release.  When the query gives an object and reading its
    count fails, it returns an empty set and the native error behind
    "oleutil.GetProperty(Count): ", and releases the object. *)
Theorem GetVolumes_early_failure (svc : Service) (d : Z) (filter : string)
    (h : Trace) :
  wmiSvc svc = Some d ->
  (forall e,
     env h (ExecQuery_call d filter) = Failed e ->
     GetVolumes env assignVariant svc filter h =
       (Done (mkVolumeSet [],
              Some (Errorf_w ("ExecQuery(" ++ query_text filter ++ "): ") e)),
        [Native (ExecQuery_call d filter) (Failed e)])) /\
  (forall raw byref rd e,
     let exec := Native (ExecQuery_call d filter) (Returned raw byref) in
     env h (ExecQuery_call d filter) = Returned raw byref ->
     ToIDispatch raw = Some rd ->
     env (h ++ [exec]) (GetProperty rd "Count") = Failed e ->
     exists reply,
       GetVolumes env assignVariant svc filter h =
         (Done (mkVolumeSet [],
                Some (Errorf_w "oleutil.GetProperty(Count): " e)),
          [exec; Native (GetProperty rd "Count") (Failed e);
           Native (Release rd) reply])).
Proof.
  intros Hd. split.
  - intros e Hq.
    unfold GetVolumes, ExecQuery_call, query_text, oleutil_CallMethod, native,
      bind in *.
    rewrite Hd. cbv zeta.
    destruct (filter =? "")%string; cbn [negb]; cbn [append] in *;
      rewrite Hq; reflexivity.
  - intros raw byref rd e exec Hq Hrd Hc. subst exec.
    destruct (GetVolumes_shape svc d rd filter h raw byref Hd Hq Hrd)
      as (vset & err & t & reply & Hg & _ & _ & Hcount).
    cbv zeta in Hcount. rewrite Hc in Hcount.
    destruct Hcount as (-> & -> & ->).
    exists reply. exact Hg.
Qed.

(** ** The mutating methods: a status that is not an int32 *)

Lemma assert_int32_other (x : value) :
  (forall c, x <> VInt Int32 c) -> assert_int32 x = (0, false).
Proof.
  intros H. destruct x as [|k n| | | | | | | |]; try reflexivity.
  destruct k; try reflexivity. contradiction (H n). reflexivity.
Qed.

(** X11: the four mutating methods read the status with a type
    assertion to int32.  When the native call returns a value of any other
    type (an unsigned integer, a string, nothing), they return an error
    that reports code 0, whatever the value was: also when it was a zero.
    [Format] then returns the zero Volume. *)
Theorem status_of_another_type_is_an_error (v : Volume) (d : Z) (h : Trace)
    (fs fsLabel label : string) (alloc : Z)
    (full force compress shortn integrity lfrs dhg : bool)
    (reTrim analyze defrag slab tier : bool)
    (res : VARIANT) (byref : list VARIANT) :
  handle v = Some d ->
  (forall c, Value res <> VInt Int32 c) ->
  (env h (CallMethod d "Flush" []) = Returned res byref ->
   outcome (Flush env v h) =
     Done (v, Some (Errorf "error code returned during flush: 0"))) /\
  (env h (Format_call d fs fsLabel alloc full force compress shortn
            integrity lfrs dhg) = Returned res byref ->
   outcome (Format env v fs fsLabel alloc full force compress shortn
              integrity lfrs dhg h) =
     Done (v, (Volume_zero, ExtendedStatus_zero,
               Some (Errorf "error code returned during formatting: 0")))) /\
  (env h (CallMethod d "Optimize"
            [VBool reTrim; VBool analyze; VBool defrag; VBool slab;
             VBool tier; VVariantPtr VariantInit]) = Returned res byref ->
   outcome (Optimize env v reTrim analyze defrag slab tier h) =
     Done (v, (ExtendedStatus_zero,
               Some (Errorf "error code returned during optimization: 0")))) /\
  (env h (CallMethod d "SetFileSystemLabel"
            [VString label; VVariantPtr VariantInit]) = Returned res byref ->
   outcome (SetFileSystemLabel env v label h) =
     Done (v, (ExtendedStatus_zero,
               Some (Errorf
                       "error code returned during setting file system label: 0")))).
Proof.
  intros Hd Hv. pose proof (assert_int32_other _ Hv) as Ha.
  repeat split; intros Hr.
  - unfold Flush, oleutil_CallMethod, native, bind, outcome.
    rewrite Hd, Hr, Ha. reflexivity.
  - unfold Format, Format_call, Format_params, oleutil_CallMethod, native,
      bind, outcome in *.
    rewrite Hd. destruct (EqualFold "ReFS" fs); destruct (alloc =? 0);
      cbn [negb]; rewrite Hr, Ha; reflexivity.
  - unfold Optimize, oleutil_CallMethod, native, bind, outcome.
    rewrite Hd, Hr, Ha. reflexivity.
  - unfold SetFileSystemLabel, oleutil_CallMethod, native, bind, outcome.
    rewrite Hd, Hr, Ha. reflexivity.
Qed.

(** ** Format: what comes back on failure, and which names mean ReFS *)

(** X12: whenever [Format] returns an error, the Volume it returns with
    it is the zero Volume, which holds no handle, so that closing it calls
    nothing; and the Volume [Format] was called on is as before. *)
Theorem Format_failure_leaves_nothing_to_close (v : Volume)
    (fs fsLabel : string) (alloc : Z)
    (full force compress shortn integrity lfrs dhg : bool) (h h' : Trace)
    (v' vol : Volume) (stat : ExtendedStatus) (e : error) :
  outcome (Format env v fs fsLabel alloc full force compress shortn
             integrity lfrs dhg h) = Done (v', (vol, stat, Some e)) ->
  v' = v /\ vol = Volume_zero /\ Close env vol h' = (Done vol, []).
Proof.
  unfold Format, oleutil_CallMethod, native, bind, outcome.
  destruct (handle v) as [d|];
    [|destruct (EqualFold "ReFS" fs); cbn; discriminate].
  destruct (EqualFold "ReFS" fs);
    match goal with
    | |- context [env h ?c] => destruct (env h c) as [res byref|err]
    end; cbn;
    try (destruct (assert_int32 (Value res)) as [val ok];
         destruct (negb (val =? 0) || negb ok)); cbn;
    intros E; inversion E; subst; repeat split.
Qed.

(** X13: [Format] takes the ReFS branch for exactly twenty-four values
    of [fs]: "ReFS" with each letter in either case, and the same with the
    long s (U+017F) for the last letter.  For these it passes nil for
    compress; for every other value, "refs " with a space or "ReFS2" as
    well, it passes nil for the integrity streams. *)
Theorem Format_ReFS_spellings (v : Volume) (d : Z) (fs fsLabel : string)
    (alloc : Z) (full force compress shortn integrity lfrs dhg : bool)
    (h : Trace) :
  handle v = Some d ->
  exists params reply,
    events (Format env v fs fsLabel alloc full force compress shortn
              integrity lfrs dhg h) =
      [Native (CallMethod d "Format" params) reply] /\
    (nth_error params 5 = Some VNil <-> In fs ReFS_spellings) /\
    (nth_error params 7 = Some VNil <-> ~ In fs ReFS_spellings).
Proof.
  intros Hd. rewrite (Format_events env v d); [|exact Hd].
  unfold Format_call, Format_params. cbv zeta.
  eexists; eexists. split; [reflexivity|].
  rewrite <- EqualFold_ReFS. cbn [nth_error].
  destruct (EqualFold "ReFS" fs); split; split; intros H;
    try reflexivity; try discriminate H; try congruence.
Qed.


(** ** Close, then Query *)

(** X14: [Close] does not make the Volume unusable for the code: a
    [Query] that follows it passes the nil test and reads DriveLetter from
    the object that was just released. *)
Theorem Query_after_Close_uses_released_handle (v : Volume) (d : Z)
    (h : Trace) :
  handle v = Some d ->
  exists released read rest,
    events ((v1 <- Close env v ;; Query env assignVariant v1) h) =
      Native (Release d) released
        :: Native (GetProperty d "DriveLetter") read :: rest.
Proof.
  intros Hd. unfold bind. rewrite (Close_once env), Hd.
  unfold Query. rewrite Hd. rewrite (getOrReturn_run env v d); [|exact Hd].
  match goal with
  | |- context [env ?h1 (GetProperty d "DriveLetter")] =>
    destruct (env h1 (GetProperty d "DriveLetter")) as [p byref|err]
  end.
  - cbv zeta.
    match goal with
    | |- context [getOrReturn env ?v1 "Path" ?k ?h1] =>
      destruct (getOrReturn env v1 "Path" k h1) as [o t]
    end.
    eexists; eexists; eexists. reflexivity.
  - eexists; eexists; eexists. reflexivity.
Qed.


End Coverage.

(** ** These properties on the sample native sides *)




Lemma Query_drive_letter_witness :
  exists v' err,
    outcome (Query size_unreadable_env assign_ok vol1 []) = Done (v', err) /\
    DriveLetter v' = EncodeRune (int32 67) /\
    (1 <= String.length (DriveLetter v') <= 4)%nat.
Proof.
  exact (Query_drive_letter size_unreadable_env assign_ok vol1 1 []
           (mkVARIANT VT_UI2 67 "") [] eq_refl eq_refl).
Defined.

Lemma GetVolumes_releases_result_only_witness :
  exists vset err t reply,
    GetVolumes sample_env assign_ok svc1 "" [] =
      (Done (vset, err),
       Native (ExecQuery_call 7 "") (Returned (ok_dispatch 10) [])
         :: t ++ [Native (Release 10) reply]) /\
    releases t = [].
Proof.
  exact (GetVolumes_releases_result_only sample_env assign_ok svc1 7 10 "" []
           (ok_dispatch 10) [] eq_refl eq_refl eq_refl).
Defined.

Lemma GetVolumes_members_in_index_order_witness :
  exists vset err,
    outcome (GetVolumes sample_env assign_ok svc1 "" []) = Done (vset, err) /\
    forall j v,
      nth_error (Volumes vset) j = Some v ->
      issued 10 (events (GetVolumes sample_env assign_ok svc1 "" []))
        (Z.of_nat j) v.
Proof.
  exact (GetVolumes_members_in_index_order sample_env assign_ok svc1 7 10 ""
           [] (ok_dispatch 10) [] eq_refl eq_refl eq_refl).
Defined.

Lemma GetVolumes_count_bound_witness :
  exists vset err,
    outcome (GetVolumes sample_env assign_ok svc1 "" []) = Done (vset, err) /\
    (List.length (Volumes vset) <= 2)%nat /\
    (err = None -> List.length (Volumes vset) = 2%nat).
Proof.
  exact (GetVolumes_count_bound sample_env assign_ok svc1 7 10 "" []
           (ok_dispatch 10) (ok_i4 2) [] [] eq_refl eq_refl eq_refl eq_refl).
Defined.

Lemma GetVolumes_all_fetched_witness :
  outcome (GetVolumes one_volume_env assign_ok svc1 "" []) =
    Done (mkVolumeSet [volC], None).
Proof.
  eapply (GetVolumes_all_fetched one_volume_env assign_ok svc1 7 10 "" []
            (ok_dispatch 10) (ok_i4 1) [] [] [volC] _
            eq_refl eq_refl eq_refl eq_refl).
  - eapply fetched_more; [reflexivity|apply fetched_none].
  - reflexivity.
Defined.

Lemma GetVolumes_then_Close_witness :
  exists t',
    VolumeSet_Close sample_env (mkVolumeSet [volC]) [] =
      (Done (mkVolumeSet [volC]), t') /\
    map Some (releases t') = map handle [volC] /\
    calls t' = map Release (releases t').
Proof.
  eapply (GetVolumes_then_Close sample_env assign_ok svc1 "" [] _ []
            (mkVolumeSet [volC]) _).
  reflexivity.
Defined.

Lemma GetVolumes_early_failure_witness :
  GetVolumes failing_env assign_ok svc1 "" [] =
    (Done (mkVolumeSet [],
           Some (Errorf_w "ExecQuery(SELECT * FROM MSFT_Volume): "
                   (Errorf "RPC server unavailable"))),
     [Native (ExecQuery_call 7 "") (Failed (Errorf "RPC server unavailable"))])
  /\
  exists reply,
    GetVolumes count_unreadable_env assign_ok svc1 "" [] =
      (Done (mkVolumeSet [],
             Some (Errorf_w "oleutil.GetProperty(Count): "
                     (Errorf "access denied"))),
       [Native (ExecQuery_call 7 "") (Returned (ok_dispatch 10) []);
        Native (GetProperty 10 "Count") (Failed (Errorf "access denied"));
        Native (Release 10) reply]).
Proof.
  split.
  - exact (proj1 (GetVolumes_early_failure failing_env assign_ok svc1 7 "" []
                    eq_refl) _ eq_refl).
  - exact (proj2 (GetVolumes_early_failure count_unreadable_env assign_ok svc1
                    7 "" [] eq_refl)
             (ok_dispatch 10) [] 10 _ eq_refl eq_refl eq_refl).
Defined.

Lemma status_of_another_type_is_an_error_witness :
  outcome (Flush unsigned_env vol1 []) =
    Done (vol1, Some (Errorf "error code returned during flush: 0")) /\
  outcome (Format unsigned_env vol1 "NTFS" "data" 0 true false false false
             false false false []) =
    Done (vol1, (Volume_zero, ExtendedStatus_zero,
                 Some (Errorf "error code returned during formatting: 0"))).
Proof.
  destruct (status_of_another_type_is_an_error unsigned_env vol1 1 []
              "NTFS" "data" "data" 0 true false false false false false false
              true false true false false (mkVARIANT VT_UI4 0 "") [] eq_refl
              (fun c (E : VInt Uint32 0 = VInt Int32 c) =>
                 eq_ind Uint32
                   (fun k => match k with Uint32 => True | _ => False end)
                   I Int32 (f_equal (fun x => match x with
                                             | VInt k _ => k
                                             | _ => Uint32
                                             end) E)))
    as (HFlush & HFormat & _).
  split; [exact (HFlush eq_refl)|exact (HFormat eq_refl)].
Defined.

Lemma Format_failure_leaves_nothing_to_close_witness :
  outcome (Format failing_env vol1 "NTFS" "data" 0 true false false false
             false false false []) =
    Done (vol1, (Volume_zero, ExtendedStatus_zero,
                 Some (Errorf_w "Format: " (Errorf "RPC server unavailable"))))
  /\
  (vol1 = vol1 /\ Volume_zero = Volume_zero /\
   Close failing_env Volume_zero [] = (Done Volume_zero, [])).
Proof.
  split; [reflexivity|].
  exact (Format_failure_leaves_nothing_to_close failing_env vol1 "NTFS" "data"
           0 true false false false false false false [] [] vol1 Volume_zero
           ExtendedStatus_zero _ eq_refl).
Defined.

Lemma Format_ReFS_spellings_witness :
  exists params reply,
    events (Format sample_env vol1 "rEfs" "data" 0 true false true true false
              false false []) =
      [Native (CallMethod 1 "Format" params) reply] /\
    (nth_error params 5 = Some VNil <-> In "rEfs" ReFS_spellings) /\
    (nth_error params 7 = Some VNil <-> ~ In "rEfs" ReFS_spellings).
Proof.
  exact (Format_ReFS_spellings sample_env vol1 1 "rEfs" "data" 0 true false
           true true false false false [] eq_refl).
Defined.

Lemma Query_after_Close_uses_released_handle_witness :
  exists released read rest,
    events ((v1 <- Close sample_env vol1 ;; Query sample_env assign_ok v1) []) =
      Native (Release 1) released
        :: Native (GetProperty 1 "DriveLetter") read :: rest.
Proof.
  exact (Query_after_Close_uses_released_handle sample_env assign_ok vol1 1 []
           eq_refl).
Defined.

End Props.
